(** * sfcc-site-exporter: configuration model and command compilation

    A shallow embedding of the pure core of the exporter
    (src/lib/config.js and src/lib/exporter.js), of the calls of the
    tool and of what the commands build (src/commands), with the
    properties of the specification that concern them and further
    properties read off the code.

    The file has four parts: the JavaScript built-ins that the program
    calls ([JS]), the source modules ([Config], [Exporter], [Child],
    [ConfigFile], [Commands]), the notions in which the properties are
    stated, and the properties with their proofs.

    Conventions of the embedding.

    - A JavaScript value that can come out of [JSON.parse] is a [value].
      An object is represented by the list of its own enumerable
      properties, in the order in which [Object.keys] enumerates them.
      Property names are ordinary names: the accessor name [__proto__]
      of [Object.prototype], an assignment to which sets the prototype
      and creates no property, is not one of them.
    - Numbers are integral; the program only looks at their [typeof],
      their truthiness and (for the timeout) their decimal rendering.
    - Strings are sequences of characters; every pattern the program
      searches for is plain ASCII.
    - A function that can throw returns an [outcome].
    - What the program gets from its environment (the clock, the path
      resolution, the file system, the JSON parser and the messages of
      its errors, the child process) is an argument of the function that
      uses it.  What the program prints is left out. *)

From Stdlib Require Import List String Ascii ZArith Bool Lia.
From Stdlib Require Import DecimalString.
Import ListNotations.
Open Scope string_scope.

(* ================================================================== *)
(** * JavaScript values and the built-ins the program uses *)
(* ================================================================== *)

Module JS.

Unset Elimination Schemes.
Inductive value : Type :=
| VNull
| VBool (b : bool)
| VNum (n : Z)
| VStr (s : string)
| VArr (elems : list value)
| VObj (props : list (string * value)).
Set Elimination Schemes.

(** Own enumerable properties of a plain object, in enumeration order. *)
Definition object : Type := list (string * value).

Inductive exn : Type :=
| TypeError
| Error (message : value).

Inductive outcome (A : Type) : Type :=
| Return (a : A)
| Throw (e : exn).
Arguments Return {A} a.
Arguments Throw {A} e.

Definition bind {A B : Type} (m : outcome A) (k : A -> outcome B) : outcome B :=
  match m with
  | Return a => k a
  | Throw e => Throw e
  end.

Notation "x <- m ;; k" := (bind m (fun x => k))
  (at level 61, m at next level, right associativity).

Fixpoint foldM {A B : Type} (body : A -> B -> outcome A) (l : list B) (acc : A)
  : outcome A :=
  match l with
  | [] => Return acc
  | x :: rest => acc' <- body acc x ;; foldM body rest acc'
  end.

(** ** Characters and strings *)

Definition dquote : string := String (ascii_of_nat 34) EmptyString.
Definition newline : string := String (ascii_of_nat 10) EmptyString.
Definition dollar : ascii := ascii_of_nat 36.

(** [Number.prototype.toString] on an integer. *)
Definition Z_toString (n : Z) : string := NilZero.string_of_int (Z.to_int n).

(** Decimal rendering of an array index, as [Object.keys] gives it. *)
Definition index_key (i : nat) : string := NilZero.string_of_uint (Nat.to_uint i).

(** [Array.prototype.join] on an array of strings. *)
Definition join (sep : string) (l : list string) : string := String.concat sep l.

(** [strip_prefix p s] is [Some r] when [s = p ++ r]. *)
Fixpoint strip_prefix (p s : string) : option string :=
  match p with
  | EmptyString => Some s
  | String a p' =>
      match s with
      | EmptyString => None
      | String b s' => if Ascii.eqb a b then strip_prefix p' s' else None
      end
  end.

(** The leftmost occurrence of [p] in [s]: what precedes it and what
    follows it ([String.prototype.indexOf] from position 0). *)
Fixpoint find_first (p s : string) : option (string * string) :=
  match strip_prefix p s with
  | Some after => Some (EmptyString, after)
  | None =>
      match s with
      | EmptyString => None
      | String c s' =>
          match find_first p s' with
          | Some (before, after) => Some (String c before, after)
          | None => None
          end
      end
  end.

(** [String.prototype.includes]. *)
Definition includes (s sub : string) : bool :=
  match find_first sub s with
  | Some _ => true
  | None => false
  end.

(** The replacement text of [String.prototype.replace] for a string
    pattern (GetSubstitution with no captures): [$$] is a dollar sign,
    [$&] the matched text, [$`] the text before the match, [$'] the text
    after it; every other character stands for itself. *)
Fixpoint getSubstitution (matched before after template : string) : string :=
  match template with
  | EmptyString => EmptyString
  | String c rest =>
      if Ascii.eqb c dollar then
        match rest with
        | EmptyString => String c EmptyString
        | String d rest' =>
            if Ascii.eqb d dollar then String dollar (getSubstitution matched before after rest')
            else if Ascii.eqb d (ascii_of_nat 38) then matched ++ getSubstitution matched before after rest'
            else if Ascii.eqb d (ascii_of_nat 96) then before ++ getSubstitution matched before after rest'
            else if Ascii.eqb d (ascii_of_nat 39) then after ++ getSubstitution matched before after rest'
            else String c (getSubstitution matched before after rest)
        end
      else String c (getSubstitution matched before after rest)
  end.

(** [s.replace(pattern, replacement)] with a string pattern: only the
    leftmost occurrence is replaced. *)
Definition replace (s pattern replacement : string) : string :=
  match find_first pattern s with
  | Some (before, after) =>
      before ++ getSubstitution pattern before after replacement ++ after
  | None => s
  end.

(** [s.replace(/c/g, d)] for single characters. *)
Fixpoint replace_all_char (c d : ascii) (s : string) : string :=
  match s with
  | EmptyString => EmptyString
  | String a rest =>
      String (if Ascii.eqb a c then d else a) (replace_all_char c d rest)
  end.

(** [s.split(c)] for a one-character separator. *)
Fixpoint split (c : ascii) (s : string) : list string :=
  match s with
  | EmptyString => [EmptyString]
  | String a rest =>
      if Ascii.eqb a c then EmptyString :: split c rest
      else match split c rest with
           | [] => [String a EmptyString]
           | first :: others => String a first :: others
           end
  end.

(** [s.split(c)[0]]. *)
Definition split_head (c : ascii) (s : string) : string :=
  hd EmptyString (split c s).

Definition is_space (a : ascii) : bool :=
  let n := nat_of_ascii a in
  ((9 <=? n) && (n <=? 13))%nat || (n =? 32)%nat.

(** Truthiness of [s.trim()]: some character is not white space
    (the white space of ASCII). *)
Fixpoint trim_nonempty (s : string) : bool :=
  match s with
  | EmptyString => false
  | String a rest => negb (is_space a) || trim_nonempty rest
  end.

(** ** Values *)

Inductive type_tag : Type := TObject | TBoolean | TNumber | TString.

Definition typeof (v : value) : type_tag :=
  match v with
  | VNull | VArr _ | VObj _ => TObject
  | VBool _ => TBoolean
  | VNum _ => TNumber
  | VStr _ => TString
  end.

Definition is_object_type (v : value) : bool :=
  match typeof v with TObject => true | _ => false end.

Definition is_boolean_type (v : value) : bool :=
  match typeof v with TBoolean => true | _ => false end.

Definition is_null (v : value) : bool :=
  match v with VNull => true | _ => false end.

(** ToBoolean. *)
Definition truthy (v : value) : bool :=
  match v with
  | VNull => false
  | VBool b => b
  | VNum n => negb (n =? 0)%Z
  | VStr s => negb (String.eqb s EmptyString)
  | VArr _ | VObj _ => true
  end.

(** Truthiness of the result of a property read ([None] is [undefined]). *)
Definition truthy_opt (v : option value) : bool :=
  match v with
  | Some x => truthy x
  | None => false
  end.

(** [v === true]. *)
Definition is_true (v : value) : bool :=
  match v with VBool true => true | _ => false end.

(** [v === s] for a string [s]. *)
Definition is_string (s : string) (v : option value) : bool :=
  match v with Some (VStr t) => String.eqb t s | _ => false end.

Fixpoint indexed {B : Type} (i : nat) (l : list B) : list (string * B) :=
  match l with
  | [] => []
  | x :: rest => (index_key i, x) :: indexed (S i) rest
  end.

(** Own enumerable string-keyed properties of a value that is neither
    [null] nor [undefined]: the properties of an object, the elements of
    an array under their indices, the characters of a string under their
    indices, nothing for a boolean or a number. *)
Definition own_entries (v : value) : object :=
  match v with
  | VObj props => props
  | VArr elems => indexed 0 elems
  | VStr s =>
      indexed 0 (map (fun c => VStr (String c EmptyString)) (list_ascii_of_string s))
  | _ => []
  end.

Definition own_keys (v : value) : list string := map fst (own_entries v).
Definition own_values (v : value) : list value := map snd (own_entries v).

(** [Object.entries], [Object.keys]: a TypeError on [null]. *)
Definition Object_entries (v : value) : outcome object :=
  if is_null v then Throw TypeError else Return (own_entries v).

Definition Object_keys (v : value) : outcome (list string) :=
  if is_null v then Throw TypeError else Return (own_keys v).

Fixpoint lookup (name : string) (o : object) : option value :=
  match o with
  | [] => None
  | (k, x) :: rest => if String.eqb k name then Some x else lookup name rest
  end.

(** [v.name] for the property names the program reads, none of which
    is an index or is inherited from a built-in prototype: a TypeError on
    [null], [undefined] ([None]) when the property is absent. *)
Definition get_prop (v : value) (name : string) : outcome (option value) :=
  match v with
  | VNull => Throw TypeError
  | VObj props => Return (lookup name props)
  | _ => Return None
  end.

(** [o[key] = v] on a plain object: an existing property keeps its place,
    a new one is enumerated last. *)
Fixpoint set_prop (o : object) (key : string) (v : value) : object :=
  match o with
  | [] => [(key, v)]
  | (k, x) :: rest =>
      if String.eqb k key then (k, v) :: rest else (k, x) :: set_prop rest key v
  end.

(** [delete o[key]]. *)
Definition delete_prop (o : object) (key : string) : object :=
  filter (fun kv => negb (String.eqb (fst kv) key)) o.

(** [Array.prototype.includes] on an array of strings. *)
Definition array_includes (l : list string) (x : string) : bool :=
  existsb (String.eqb x) l.

(** [Set.prototype.add] on a set of strings, kept in insertion order. *)
Definition set_add (s : list string) (x : string) : list string :=
  if array_includes s x then s else (s ++ [x])%list.

(** The loop [for (const [k, x] of Object.entries(o))] over a value [o]
    of type object, written by recursion on [o] itself. *)
Definition for_props {A B : Type} (body : A -> string -> B -> A)
  : list (string * B) -> A -> A :=
  fix go (l : list (string * B)) (acc : A) : A :=
    match l with
    | [] => acc
    | (k, x) :: rest => go rest (body acc k x)
    end.

Definition for_elems {A B : Type} (body : A -> string -> B -> A)
  : list B -> nat -> A -> A :=
  fix go (l : list B) (i : nat) (acc : A) : A :=
    match l with
    | [] => acc
    | x :: rest => go rest (S i) (body acc (index_key i) x)
    end.

Definition for_own {A : Type} (body : A -> string -> value -> A) (o : value)
  (init : A) : A :=
  match o with
  | VObj props => for_props body props init
  | VArr elems => for_elems body elems 0%nat init
  | _ => init
  end.

End JS.

(* ================================================================== *)
(** * src/lib/config.js *)
(* ================================================================== *)

Module Config.
Import JS.

(** Site export data options. *)
Definition siteDataOptions : list string :=
  [ "all"; "ab_tests"; "active_data_feeds"; "cache_settings";
    "campaigns_and_promotions"; "content"; "coupons"; "custom_objects";
    "customer_cdn_settings"; "customer_groups";
    "distributed_commerce_extensions"; "dynamic_file_resources";
    "gift_certificates"; "ocapi_settings"; "payment_methods";
    "payment_processors"; "redirect_urls"; "search_settings"; "shipping";
    "site_descriptor"; "site_preferences"; "sitemap_settings"; "slots";
    "sorting_rules"; "source_codes"; "static_dynamic_alias_mappings";
    "stores"; "tax"; "url_rules" ].

(** Global data options. *)
Definition globalDataOptions : list string :=
  [ "access_roles"; "all"; "csc_settings"; "csrf_whitelists";
    "custom_preference_groups"; "custom_quota_settings"; "custom_types";
    "geolocations"; "global_custom_objects"; "job_schedules";
    "job_schedules_deprecated"; "locales"; "meta_data"; "oauth_providers";
    "ocapi_settings"; "page_meta_tags"; "preferences";
    "price_adjustment_limits"; "services"; "sorting_rules";
    "static_resources"; "system_type_definitions"; "users";
    "webdav_client_permissions" ].

Definition validDataUnitKeys : list string :=
  [ "global_data"; "sites"; "customer_lists"; "inventory_lists" ].

(** ** validateConfig *)

Definition missing_dataUnits : string :=
  "Configuration must have a " ++ dquote ++ "dataUnits" ++ dquote ++ " property".

Definition unknown_dataUnits_key (key : string) : string :=
  "Unknown dataUnits key: " ++ dquote ++ key ++ dquote ++ ". Valid keys are: "
  ++ join ", " validDataUnitKeys.

Definition unknown_global_data_option (key : string) : string :=
  "Unknown global_data option: " ++ dquote ++ key ++ dquote.

Definition unknown_site_data_option (siteId key : string) : string :=
  "Unknown site data option for site " ++ dquote ++ siteId ++ dquote ++ ": "
  ++ dquote ++ key ++ dquote.

Definition invalid_site_configuration (siteId : string) : string :=
  "Invalid site configuration for " ++ dquote ++ siteId ++ dquote
  ++ ": must be boolean or object".

(** [errors.push(message(key))] for every key of [keys] outside [known]. *)
Definition push_unknown (known : list string) (message : string -> string)
  (keys : list string) (errors : list string) : list string :=
  fold_left
    (fun errors key =>
       if negb (array_includes known key) then (errors ++ [message key])%list
       else errors)
    keys errors.

(** The body of the loop over [Object.entries(config.dataUnits.sites)]. *)
Definition check_site (errors : list string) (entry : string * value)
  : list string :=
  let '(siteId, siteConfig) := entry in
  if is_object_type siteConfig && negb (is_null siteConfig) then
    push_unknown siteDataOptions (unknown_site_data_option siteId)
      (own_keys siteConfig) errors
  else if negb (is_boolean_type siteConfig) then
    (errors ++ [invalid_site_configuration siteId])%list
  else errors.

(** The list [errors] at the end of the checks.  [Object.keys] and
    [Object.entries] are only applied to values found truthy, which are
    not [null]. *)
Definition validation_errors (config : value) : outcome (list string) :=
  let errors := [] in
  dataUnits <- get_prop config "dataUnits" ;;
  match dataUnits with
  | None => Return (errors ++ [missing_dataUnits])%list
  | Some dataUnits =>
      if negb (truthy dataUnits) then Return (errors ++ [missing_dataUnits])%list
      else
        let errors :=
          push_unknown validDataUnitKeys unknown_dataUnits_key
            (own_keys dataUnits) errors in
        global_data <- get_prop dataUnits "global_data" ;;
        let errors :=
          match global_data with
          | Some global_data =>
              if truthy global_data then
                push_unknown globalDataOptions unknown_global_data_option
                  (own_keys global_data) errors
              else errors
          | None => errors
          end in
        sites <- get_prop dataUnits "sites" ;;
        let errors :=
          match sites with
          | Some sites =>
              if truthy sites then fold_left check_site (own_entries sites) errors
              else errors
          | None => errors
          end in
        Return errors
  end.

Definition validation_failed (errors : list string) : string :=
  "Configuration validation failed:" ++ newline
  ++ join newline (map (fun e => "  - " ++ e) errors).

Definition validateConfig (config : value) : outcome value :=
  errors <- validation_errors config ;;
  if (0 <? List.length errors)%nat
  then Throw (Error (VStr (validation_failed errors)))
  else Return config.

(** ** generateArchiveName *)

(** What the program observes of [new Date()]. *)
Record Date : Type := {
  toISOString : string;
  toTimeString : string;
  getTime : Z
}.

(** The [context] argument; [site] is [None] when the property is absent. *)
Record Context : Type := { site : option string }.

Definition no_context : Context := {| site := None |}.

(** [context.site || "all"]. *)
Definition site_or_all (context : Context) : string :=
  match site context with
  | Some s => if String.eqb s EmptyString then "all" else s
  | None => "all"
  end.

Definition generateArchiveName (now : Date) (template : string)
  (context : Context) : string :=
  let date := split_head "T" (toISOString now) in
  let time := replace_all_char ":" "-" (split_head " " (toTimeString now)) in
  let timestamp := getTime now in
  let name :=
    replace
      (replace
         (replace (replace template "{date}" date) "{time}" time)
         "{timestamp}" (Z_toString timestamp))
      "{site}" (site_or_all context) in
  name.

(** ** filterEnabledDataUnits *)

Section FilterBody.

(** The recursive call. *)
Variable filterEnabledDataUnits : value -> object.

(** The body of the inner loop, over the entries of a nested object;
    the state is [(filteredNested, hasEnabled)]. *)
Definition filter_nested_entry (state : object * bool) (nestedKey : string)
  (nestedValue : value) : object * bool :=
  let '(filteredNested, hasEnabled) := state in
  match nestedValue with
  | VBool b =>
      if b then (set_prop filteredNested nestedKey nestedValue, true) else state
  | VObj _ | VArr _ =>
      let filteredSite := filterEnabledDataUnits nestedValue in
      if (0 <? List.length (map fst filteredSite))%nat
      then (set_prop filteredNested nestedKey (VObj filteredSite), true)
      else state
  | _ => state
  end.

(** The body of the outer loop, over the entries of [dataUnits]. *)
Definition filter_entry (filtered : object) (key : string) (value : value)
  : object :=
  match value with
  | VBool b => if b then set_prop filtered key value else filtered
  | VObj _ | VArr _ =>
      let '(filteredNested, hasEnabled) :=
        for_own filter_nested_entry value ([], false) in
      if hasEnabled then set_prop filtered key (VObj filteredNested) else filtered
  | _ => filtered
  end.

End FilterBody.

(** The own properties of the object that [filterEnabledDataUnits]
    returns, for an argument other than [null].  A primitive argument has
    no entry that is a boolean or an object (the entries of a string are
    its characters), so nothing is kept of it. *)
Fixpoint filterEnabled (dataUnits : value) : object :=
  for_own (filter_entry filterEnabled) dataUnits [].

Definition filterEnabledDataUnits (dataUnits : value) : outcome value :=
  if is_null dataUnits then Throw TypeError
  else Return (VObj (filterEnabled dataUnits)).

End Config.

(* ================================================================== *)
(** * src/lib/exporter.js *)
(* ================================================================== *)

Module Exporter.
Import JS.

(** The [timeout] option: the number [600] by default, the string that
    the command line carries otherwise. *)
Inductive timeout_value : Type :=
| TimeoutNumber (n : Z)
| TimeoutString (s : string).

Definition timeout_toString (t : timeout_value) : string :=
  match t with
  | TimeoutNumber n => Z_toString n
  | TimeoutString s => s
  end.

(** The options read by [buildExportArgs] and [executeSiteExport]; a
    field is [None] when the property is [undefined].  The caller's
    [zipOnly] and [noDownload] are carried and never read. *)
Record ExportOptions : Type := {
  outputPath : option string;
  keepArchive : option bool;
  timeout : option timeout_value;
  zipOnly : option bool;
  noDownload : option bool;
  debug : option bool;
  instance : option string
}.

Definition default {A : Type} (d : A) (x : option A) : A :=
  match x with
  | Some a => a
  | None => d
  end.

(** The result of [executeB2cCommand]; [code] is [None] when the child
    was ended by a signal. *)
Record CommandResult : Type := {
  stdout : string;
  stderr : string;
  code : option Z
}.

(** An object under construction whose properties may be [undefined]. *)
Definition result_object : Type := list (string * option value).

Fixpoint set_result (o : result_object) (key : string) (v : option value)
  : result_object :=
  match o with
  | [] => [(key, v)]
  | (k, x) :: rest =>
      if String.eqb k key then (k, v) :: rest else (k, x) :: set_result rest key v
  end.

(** [a || b] on the results of two property reads. *)
Definition or_else (a b : option value) : option value :=
  if truthy_opt a then a else b.

Definition job_already_running : string :=
  "The export job is already running on this instance." ++ newline
  ++ "Please wait for the current job to complete and try again." ++ newline
  ++ "You can check job status in Business Manager: Administration > Operations > Jobs".

Definition cli_not_installed : string :=
  "b2c CLI is not installed or not in PATH." ++ newline
  ++ "Please install it with: npm install -g @salesforce/b2c-cli" ++ newline
  ++ "See: https://salesforcecommercecloud.github.io/b2c-developer-tooling/guide/installation.html".

Section Node.

(** [path.resolve]. *)
Variable path_resolve : string -> string.

(** [JSON.parse]; [None] is a SyntaxError. *)
Variable JSON_parse : string -> option value.

(** Whether the probe [checkB2cCli] finds the tool. *)
Variable checkB2cCli : bool.

(** The child process run by [executeB2cCommand], as a function of the
    arguments and of the [debug] and [instance] options; the child is
    taken to start and to close. *)
Variable executeB2cCommand : list string -> bool -> option string -> CommandResult.

(** ** buildExportArgs *)

(** [Object.entries(o).filter(([_, enabled]) => enabled === true)
      .map(([key]) => key)]. *)
Definition enabled_keys (entries : object) : list string :=
  map fst (filter (fun entry => is_true (snd entry)) entries).

(** The loop that collects the enabled data units of one site into the
    set [allSiteData]. *)
Definition collect_site_data (allSiteData : list string) (siteConfig : value)
  : outcome (list string) :=
  if is_object_type siteConfig then
    entries <- Object_entries siteConfig ;;
    Return
      (fold_left
         (fun allSiteData entry =>
            let '(key, enabled) := entry in
            if is_true enabled then set_add allSiteData key else allSiteData)
         entries allSiteData)
  else Return allSiteData.

Definition buildExportArgs (dataUnits : value) (exportOptions : ExportOptions)
  : outcome (list string) :=
  let args := ["job"; "export"] in
  let outputPath := default "./exports" (outputPath exportOptions) in
  let keepArchive := default false (keepArchive exportOptions) in
  let timeout := default (TimeoutNumber 600) (timeout exportOptions) in
  (* Output directory *)
  let args := (args ++ ["--output"; path_resolve outputPath])%list in
  (* Timeout *)
  let args := (args ++ ["--timeout"; timeout_toString timeout])%list in
  (* Keep archive flag *)
  let args := if keepArchive then (args ++ ["--keep-archive"])%list else args in
  (* Always download as zip (no extraction) *)
  let args := (args ++ ["--zip-only"])%list in
  (* Global data *)
  global_data <- get_prop dataUnits "global_data" ;;
  let args :=
    match global_data with
    | Some global_data =>
        if truthy global_data && (0 <? List.length (own_keys global_data))%nat then
          let enabledGlobalData := enabled_keys (own_entries global_data) in
          if (0 <? List.length enabledGlobalData)%nat
          then (args ++ ["--global-data"; join "," enabledGlobalData])%list
          else args
        else args
    | None => args
    end in
  (* Sites *)
  sites <- get_prop dataUnits "sites" ;;
  args <-
    match sites with
    | Some sites =>
        if truthy sites && (0 <? List.length (own_keys sites))%nat then
          let siteIds := own_keys sites in
          let args := (args ++ ["--site"; join "," siteIds])%list in
          (* Collect all enabled site data units across all sites *)
          allSiteData <- foldM collect_site_data (own_values sites) [] ;;
          if (0 <? List.length allSiteData)%nat
          then Return (args ++ ["--site-data"; join "," allSiteData])%list
          else Return args
        else Return args
    | None => Return args
    end ;;
  (* Inventory lists *)
  inventory_lists <- get_prop dataUnits "inventory_lists" ;;
  let args :=
    match inventory_lists with
    | Some inventory_lists =>
        if truthy inventory_lists
           && (0 <? List.length (own_keys inventory_lists))%nat then
          let inventoryIds := enabled_keys (own_entries inventory_lists) in
          if (0 <? List.length inventoryIds)%nat
          then (args ++ ["--inventory-list"; join "," inventoryIds])%list
          else args
        else args
    | None => args
    end in
  Return args.

(** ** executeSiteExport *)

(** What one log line contributes to the scan: [Some message] when the
    loop breaks with [errorMessage] set, [None] when it goes on to the
    next line (the line is not JSON, reading a property of it throws, or
    it carries no message). *)
Definition scan_line (line : string) : option value :=
  match JSON_parse line with
  | None => None
  | Some logEntry =>
      match get_prop logEntry "level", get_prop logEntry "msg",
            get_prop logEntry "error" with
      | Return level, Return msg, Return error =>
          if is_string "error" level && truthy_opt msg then msg
          else
            let message :=
              match error with
              | Some (VObj props) => lookup "message" props
              | _ => None
              end in
            if truthy_opt message then message else None
      | _, _, _ => None
      end
  end.

Fixpoint scan_lines (lines : list string) (errorMessage : value) : value :=
  match lines with
  | [] => errorMessage
  | line :: rest =>
      match scan_line line with
      | Some message => message
      | None => scan_lines rest errorMessage
      end
  end.

(** The branch [result.code !== 0]: the error that is thrown.  The
    outer [catch] of the source is not reached, since splitting and
    trimming a string do not throw, and has no counterpart here. *)
Definition export_failure (result : CommandResult) : exn :=
  let errorMessage := VStr "Export failed" in
  let fullOutput :=
    if negb (String.eqb (stdout result) EmptyString) then stdout result
    else if negb (String.eqb (stderr result) EmptyString) then stderr result
    else EmptyString in
  (* Check for JobAlreadyRunningException in the output *)
  if includes fullOutput "JobAlreadyRunningException" then
    Error (VStr job_already_running)
  else
    (* Try to extract error message from JSON log lines *)
    let lines := filter trim_nonempty (split (ascii_of_nat 10) fullOutput) in
    let errorMessage := scan_lines lines errorMessage in
    Error errorMessage.

(** The value returned when the child exits with code 0. *)
Definition export_success (absoluteOutputPath : string) (result : CommandResult)
  : result_object :=
  let basic := [("success", Some (VBool true));
                ("localPath", Some (VStr absoluteOutputPath))] in
  match JSON_parse (stdout result) with
  | None => basic
  | Some output =>
      match get_prop output "localPath", get_prop output "path",
            get_prop output "archiveFilename", get_prop output "archive" with
      | Return localPath, Return path, Return archiveFilename, Return archive =>
          fold_left
            (fun o entry => set_result o (fst entry) (Some (snd entry)))
            (own_entries output)
            [("success", Some (VBool true));
             ("localPath", or_else localPath path);
             ("archiveFilename", or_else archiveFilename archive)]
      | _, _, _, _ => basic
      end
  end.

(** The creation of the output directory, an effect on the file system
    that no later step reads, is left out. *)
Definition executeSiteExport (dataUnits : value) (options : ExportOptions)
  : outcome result_object :=
  let outputPath := default "./exports" (outputPath options) in
  let keepArchive := default false (keepArchive options) in
  let timeout := default (TimeoutNumber 600) (timeout options) in
  let debug := default false (debug options) in
  let instance := instance options in
  (* Check if b2c CLI is available *)
  if negb checkB2cCli then Throw (Error (VStr cli_not_installed))
  else
    let absoluteOutputPath := path_resolve outputPath in
    (* Build export arguments *)
    args <- buildExportArgs dataUnits
              {| outputPath := Some absoluteOutputPath;
                 keepArchive := Some keepArchive;
                 timeout := Some timeout;
                 zipOnly := None; noDownload := None;
                 debug := None; instance := None |} ;;
    (* Execute the command *)
    let result := executeB2cCommand args debug instance in
    if negb (match code result with Some 0%Z => true | _ => false end)
    then Throw (export_failure result)
    else Return (export_success absoluteOutputPath result).

End Node.

End Exporter.

(* ================================================================== *)
(** * src/lib/exporter.js: the calls of the tool *)
(* ================================================================== *)

Module Child.
Import JS.

(** [String.prototype.trim], for the white space of ASCII. *)
Fixpoint trimStart (s : string) : string :=
  match s with
  | EmptyString => EmptyString
  | String c rest => if is_space c then trimStart rest else s
  end.

Fixpoint trimEnd (s : string) : string :=
  match s with
  | EmptyString => EmptyString
  | String c rest =>
      match trimEnd rest with
      | EmptyString => if is_space c then EmptyString else String c EmptyString
      | kept => String c kept
      end
  end.

Definition trim (s : string) : string := trimEnd (trimStart s).



(** The options of [executeSiteImport], [getInstanceInfo] and
    [testInstanceConnectivity]; a field is [None] when the property is
    [undefined] or [null]. *)
Record Options : Type := {
  timeout : option Exporter.timeout_value;
  debug : option bool;
  instance : option string;
  keepArchive : option bool
}.


Section Node.

(** The process started by [spawn], as a function of its arguments; it
    is taken to start and to close. *)
Variable spawn : list string -> Exporter.CommandResult.

(** [JSON.parse]; [None] is a SyntaxError, whose message is
    [SyntaxError_message] of the text. *)
Variable JSON_parse : string -> option value.
Variable SyntaxError_message : string -> string.

(** The message of the TypeError thrown when the property of that name
    is read of [null]. *)
Variable TypeError_message : string -> string.

(** [fs.existsSync]. *)
Variable fs_existsSync : string -> bool.

(** ** executeB2cCommand *)

(** The arguments that the child process is given.  [cwd], which no
    caller sets, and the trace printed in debug mode are left out. *)
Definition fullArgs (args : list string) (debug : bool)
  (instance : option string) : list string :=
  let fullArgs := args in
  let fullArgs :=
    match instance with
    | Some name =>
        if negb (String.eqb name EmptyString)
        then (fullArgs ++ ["--instance"; name])%list
        else fullArgs
    | None => fullArgs
    end in
  (* Debug mode enables trace-level logging for network traffic *)
  let fullArgs :=
    if debug then (fullArgs ++ ["--log-level"; "trace"])%list else fullArgs in
  (* Always output JSON for parsing *)
  (fullArgs ++ ["--json"])%list.

Definition executeB2cCommand (args : list string) (debug : bool)
  (instance : option string) : Exporter.CommandResult :=
  spawn (fullArgs args debug instance).

(** ** getInstanceInfo, testInstanceConnectivity *)

Definition exit_zero (result : Exporter.CommandResult) : bool :=
  match Exporter.code result with
  | Some 0%Z => true
  | _ => false
  end.

(** [output.config || output]. *)
Definition config_of (output : value) : outcome value :=
  nested <- get_prop output "config" ;;
  Return (match nested with
          | Some config => if truthy config then config else output
          | None => output
          end).

Definition getInstanceInfo (options : Options) : Exporter.result_object :=
  let args := ["setup"; "config"] in
  let fallback := [("hostname", Some (VStr "configured instance"));
                   ("codeVersion", Some VNull)] in
  let result :=
    executeB2cCommand args (Exporter.default false (debug options))
      (instance options) in
  if exit_zero result then
    match JSON_parse (Exporter.stdout result) with
    | None => fallback
    | Some output =>
        (* The config is nested under 'config' key *)
        match (config <- config_of output ;;
               hostname <- get_prop config "hostname" ;;
               server <- get_prop config "server" ;;
               codeVersion <- get_prop config "codeVersion" ;;
               code_version <- get_prop config "code-version" ;;
               Return
                 [("hostname",
                   Exporter.or_else (Exporter.or_else hostname server)
                     (Some (VStr "unknown")));
                  ("codeVersion", Exporter.or_else codeVersion code_version)])
        with
        | Return info => info
        | Throw _ => fallback
        end
    end
  else fallback.

Definition connectivity (success : bool) (hostname error : value) : object :=
  [("success", VBool success); ("hostname", hostname); ("error", error)].

Definition testInstanceConnectivity (options : Options) : object :=
  let result :=
    executeB2cCommand ["setup"; "config"]
      (Exporter.default false (debug options)) (instance options) in
  (* Try to parse error message *)
  let unreachable :=
    let errorMessage :=
      if negb (String.eqb (Exporter.stderr result) EmptyString)
      then trim (Exporter.stderr result)
      else "Unable to read instance configuration" in
    connectivity false VNull (VStr errorMessage) in
  if exit_zero result then
    match JSON_parse (Exporter.stdout result) with
    | None =>
        connectivity false VNull
          (VStr (SyntaxError_message (Exporter.stdout result)))
    | Some output =>
        match (config <- config_of output ;; get_prop config "hostname") with
        | Return hostname =>
            match hostname with
            | Some hostname =>
                if truthy hostname then connectivity true hostname VNull
                else unreachable
            | None => unreachable
            end
        | Throw _ =>
            connectivity false VNull (VStr (TypeError_message "config"))
        end
    end
  else unreachable.

(** ** executeSiteImport *)






End Node.

End Child.

(* ================================================================== *)
(** * src/lib/config.js: reading the configuration file *)
(* ================================================================== *)

Module ConfigFile.
Import JS.

(** Default configuration structure with all available options. *)
Definition defaultConfig : value :=
  VObj
    [("archive", VObj [("name", VStr "export-{date}-{timestamp}")]);
     ("dataUnits",
      VObj
        [("global_data",
          VObj
            [("access_roles", VBool false);
             ("all", VBool false);
             ("csc_settings", VBool false);
             ("csrf_whitelists", VBool false);
             ("custom_preference_groups", VBool false);
             ("custom_quota_settings", VBool false);
             ("custom_types", VBool false);
             ("geolocations", VBool false);
             ("global_custom_objects", VBool false);
             ("job_schedules", VBool false);
             ("job_schedules_deprecated", VBool false);
             ("locales", VBool false);
             ("meta_data", VBool false);
             ("oauth_providers", VBool false);
             ("ocapi_settings", VBool false);
             ("page_meta_tags", VBool false);
             ("preferences", VBool false);
             ("price_adjustment_limits", VBool false);
             ("services", VBool false);
             ("sorting_rules", VBool false);
             ("static_resources", VBool false);
             ("system_type_definitions", VBool false);
             ("users", VBool false);
             ("webdav_client_permissions", VBool false)]);
         ("sites", VObj []);
         ("customer_lists", VObj []);
         ("inventory_lists", VObj [])])].



Section Node.

(** [path.resolve]. *)
Variable path_resolve : string -> string.

(** [fs.existsSync], and [fs.readFileSync] on a file that exists; the
    file is taken to be readable. *)
Variable fs_existsSync : string -> bool.
Variable fs_readFileSync : string -> string.

(** [JSON.parse]; [None] is a SyntaxError, whose message is
    [SyntaxError_message] of the text. *)
Variable JSON_parse : string -> option value.
Variable SyntaxError_message : string -> string.


End Node.

End ConfigFile.

(* ================================================================== *)
(** * src/commands: what the commands build *)
(* ================================================================== *)

Module Commands.
Import JS.

(** [a || {}] on the result of a property read. *)
Definition or_empty (a : option value) : value :=
  match a with
  | Some x => if truthy x then x else VObj []
  | None => VObj []
  end.

(** ** export.js *)

Definition buildDataUnitsFromInteractiveConfig (config : value)
  : outcome object :=
  global_data <- get_prop config "global_data" ;;
  sites <- get_prop config "sites" ;;
  let dataUnits := [("global_data", or_empty global_data);
                    ("sites", or_empty sites)] in
  inventory_lists <- get_prop config "inventory_lists" ;;
  Return (match inventory_lists with
          | Some inventory_lists =>
              if truthy inventory_lists
              then set_prop dataUnits "inventory_lists" inventory_lists
              else dataUnits
          | None => dataUnits
          end).

(** ** init.js *)

(** Minimal configuration for quick start. *)
Definition minimalConfig : value :=
  VObj
    [("archive", VObj [("name", VStr "export-{date}-{timestamp}")]);
     ("dataUnits",
      VObj
        [("global_data",
          VObj [("meta_data", VBool true); ("custom_types", VBool true)]);
         ("sites",
          VObj
            [("YourSiteId",
              VObj [("content", VBool true);
                    ("site_preferences", VBool true);
                    ("customer_groups", VBool true)])])])].

(** Full configuration with all options. *)
Definition generateFullConfig : value :=
  (* Build site data options object *)
  let siteDataConfig :=
    fold_left (fun siteDataConfig option => set_prop siteDataConfig option (VBool false))
      Config.siteDataOptions [] in
  (* Build global data options object *)
  let globalDataConfig :=
    fold_left (fun globalDataConfig option => set_prop globalDataConfig option (VBool false))
      Config.globalDataOptions [] in
  VObj
    [("archive", VObj [("name", VStr "export-{date}-{timestamp}")]);
     ("dataUnits",
      VObj
        [("global_data", VObj globalDataConfig);
         ("sites", VObj [("ExampleSite", VObj siteDataConfig)]);
         ("customer_lists", VObj []);
         ("inventory_lists", VObj [])])].

End Commands.

(* ================================================================== *)
(** * Notions used in the statements *)
(* ================================================================== *)

Import JS.

(** ** Induction on values *)

Section ValueInduction.

Variable P : value -> Prop.
Hypothesis Hnull : P VNull.
Hypothesis Hbool : forall b, P (VBool b).
Hypothesis Hnum : forall n, P (VNum n).
Hypothesis Hstr : forall s, P (VStr s).
Hypothesis Harr : forall elems, Forall P elems -> P (VArr elems).
Hypothesis Hobj :
  forall props, Forall (fun entry => P (snd entry)) props -> P (VObj props).

Fixpoint value_ind (v : value) : P v :=
  match v with
  | VNull => Hnull
  | VBool b => Hbool b
  | VNum n => Hnum n
  | VStr s => Hstr s
  | VArr elems =>
      Harr elems
        ((fix all (l : list value) : Forall P l :=
            match l with
            | [] => Forall_nil P
            | x :: rest => Forall_cons x (value_ind x) (all rest)
            end) elems)
  | VObj props =>
      Hobj props
        ((fix all (l : list (string * value))
            : Forall (fun entry => P (snd entry)) l :=
            match l with
            | [] => Forall_nil _
            | entry :: rest => Forall_cons entry (value_ind (snd entry)) (all rest)
            end) props)
  end.

End ValueInduction.

(** ** Filtered trees *)


(** [l.length > 0]. *)
Definition nonempty {A : Type} (l : list A) : bool :=
  match l with [] => false | _ => true end.

(** No string occurs twice in [l]. *)
Fixpoint distinct (l : list string) : bool :=
  match l with
  | [] => true
  | x :: rest => negb (array_includes rest x) && distinct rest
  end.

(** The shape of a value inside a filtered tree: the boolean [true], or
    a non-empty object with distinct keys whose values have that shape
    again. *)
Fixpoint filtered_value (v : value) : bool :=
  match v with
  | VBool b => b
  | VObj props =>
      nonempty props && distinct (map fst props)
      && forallb (fun entry => filtered_value (snd entry)) props
  | _ => false
  end.

(** FilteredDataUnits: an object, possibly empty, with distinct keys
    whose values are all enabled. *)
Definition filtered_tree (props : object) : bool :=
  distinct (map fst props)
  && forallb (fun entry => filtered_value (snd entry)) props.

(** What the filter keeps of one entry's value. *)
Definition kept (v : value) : option value :=
  match v with
  | VBool b => if b then Some v else None
  | VObj _ | VArr _ =>
      if nonempty (Config.filterEnabled v)
      then Some (VObj (Config.filterEnabled v)) else None
  | _ => None
  end.

(** One step of the filter, as a uniform recursion would take it. *)
Definition keep_entry (filtered : object) (key : string) (v : value) : object :=
  match kept v with
  | Some v' => set_prop filtered key v'
  | None => filtered
  end.

(** The entry survives the filter. *)
Definition is_kept (entry : string * value) : bool :=
  match kept (snd entry) with Some _ => true | None => false end.




(** ** Violations of the configuration rules *)

(** The keys of [keys] that are not in the catalog [known]. *)
Definition unknown_keys (known keys : list string) : list string :=
  filter (fun key => negb (array_includes known key)) keys.

(** The errors that one entry of [sites] gives rise to. *)
Definition site_errors (entry : string * value) : list string :=
  if is_object_type (snd entry) && negb (is_null (snd entry)) then
    map (Config.unknown_site_data_option (fst entry))
      (unknown_keys Config.siteDataOptions (own_keys (snd entry)))
  else if negb (is_boolean_type (snd entry)) then
    [Config.invalid_site_configuration (fst entry)]
  else [].

(** The own keys, or entries, of the value of an optional property that
    is looked at only when it is truthy. *)
Definition keys_if_truthy (v : option value) : list string :=
  match v with
  | Some x => if truthy x then own_keys x else []
  | None => []
  end.

Definition entries_if_truthy (v : option value) : object :=
  match v with
  | Some x => if truthy x then own_entries x else []
  | None => []
  end.

(** A site value that is an object: [typeof] is object and it is not
    [null]. *)
Definition is_mapping (v : value) : bool :=
  is_object_type v && negb (is_null v).


(** ** Placeholders *)


(** [p] occurs in [s]. *)
Definition occurs (p s : string) : Prop :=
  exists before after, s = before ++ p ++ after.





(** A reading of the clock. *)
Definition sample_clock : Config.Date :=
  {| Config.toISOString := "2026-11-02T09:30:15.123Z";
     Config.toTimeString := "10:30:15 GMT+0100 (Central European Standard Time)";
     Config.getTime := 1793611815123 |}.

(** ** The sections of the argument list *)

(** The inner loop of the site section: the enabled keys of one site
    join the set. *)
Definition add_enabled (allSiteData : list string) (entries : object)
  : list string :=
  fold_left
    (fun allSiteData entry =>
       let '(key, enabled) := entry in
       if is_true enabled then set_add allSiteData key else allSiteData)
    entries allSiteData.

(** The set [allSiteData] after the loop over the sites, when no site
    is [null]. *)
Definition site_data_union (acc : list string) (siteConfigs : list value)
  : list string :=
  fold_left
    (fun acc siteConfig =>
       if is_object_type siteConfig then add_enabled acc (own_entries siteConfig)
       else acc)
    siteConfigs acc.

(** A flag with the comma-joined list of its values; nothing when there
    is no value. *)
Definition flag (name : string) (values : list string) : list string :=
  match values with
  | [] => []
  | _ => [name; join "," values]
  end.

(** No value of the [sites] mapping is [null]. *)
Definition no_null_site (dataUnits : object) : bool :=
  forallb (fun c => negb (is_null c))
    (map snd (entries_if_truthy (lookup "sites" dataUnits))).

(** Steps 1 to 5 of the compilation: the part of the argument list that
    comes from the export options. *)
Definition preamble (path_resolve : string -> string)
  (exportOptions : Exporter.ExportOptions) : list string :=
  ["job"; "export";
   "--output";
   path_resolve (Exporter.default "./exports" (Exporter.outputPath exportOptions));
   "--timeout";
   Exporter.timeout_toString
     (Exporter.default (Exporter.TimeoutNumber 600)
        (Exporter.timeout exportOptions))]
  ++ (if Exporter.default false (Exporter.keepArchive exportOptions)
      then ["--keep-archive"] else [])
  ++ ["--zip-only"].

(** The site section of the argument list. *)
Definition site_flags (sites : option value) : list string :=
  match entries_if_truthy sites with
  | [] => []
  | entries =>
      ["--site"; join "," (map fst entries)]
      ++ flag "--site-data" (site_data_union [] (map snd entries))
  end.

(** ** The outcome of the child process *)

(** The output that [executeSiteExport] examines after a failure:
    [result.stdout || result.stderr], that is the standard output when
    it is not empty and the standard error otherwise. *)
Definition examined_output (result : Exporter.CommandResult) : string :=
  if String.eqb (Exporter.stdout result) EmptyString
  then Exporter.stderr result
  else Exporter.stdout result.

(** The result of the child process that [executeSiteExport] runs, when
    the arguments compile. *)
Definition export_command_result (path_resolve : string -> string)
  (executeB2cCommand : list string -> bool -> option string
                       -> Exporter.CommandResult)
  (dataUnits : value) (options : Exporter.ExportOptions)
  : outcome Exporter.CommandResult :=
  args <- Exporter.buildExportArgs path_resolve dataUnits
            {| Exporter.outputPath :=
                 Some (path_resolve
                         (Exporter.default "./exports"
                            (Exporter.outputPath options)));
               Exporter.keepArchive :=
                 Some (Exporter.default false (Exporter.keepArchive options));
               Exporter.timeout :=
                 Some (Exporter.default (Exporter.TimeoutNumber 600)
                         (Exporter.timeout options));
               Exporter.zipOnly := None; Exporter.noDownload := None;
               Exporter.debug := None; Exporter.instance := None |} ;;
  Return (executeB2cCommand args
            (Exporter.default false (Exporter.debug options))
            (Exporter.instance options)).

(** ** Concrete configurations and environments *)

(** A reading of texts that are not JSON: [JSON.parse] throws a
    SyntaxError on each of them. *)
Definition not_json (text : string) : option value := None.

(** A filtered tree with one global data unit. *)
Definition sample_tree : value :=
  VObj [("global_data", VObj [("meta_data", VBool true)])].

(** The options object [{}]. *)
Definition no_options : Exporter.ExportOptions :=
  {| Exporter.outputPath := None; Exporter.keepArchive := None;
     Exporter.timeout := None; Exporter.zipOnly := None;
     Exporter.noDownload := None; Exporter.debug := None;
     Exporter.instance := None |}.

(** A child that prints a plain message on its standard output and the
    exception on its standard error, and exits with code 1. *)
Definition child_with_both_streams (args : list string) (debug : bool)
  (instance : option string) : Exporter.CommandResult :=
  {| Exporter.stdout := "Export job failed";
     Exporter.stderr := "JobAlreadyRunningException: job sfcc-site-archive-export";
     Exporter.code := Some 1%Z |}.

(** The heterogeneous selection of the specification: site [A] wants
    [content], site [B] wants [coupons]. *)
Definition two_sites : object :=
  [("global_data", VObj [("meta_data", VBool true); ("custom_types", VBool true)]);
   ("sites",
    VObj [("A", VObj [("content", VBool true)]);
          ("B", VObj [("coupons", VBool true)])])].

(** Its [sites] mapping. *)
Definition two_sites_mapping : object :=
  [("A", VObj [("content", VBool true)]);
   ("B", VObj [("coupons", VBool true)])].

(** A resolution of relative paths against a working directory. *)
Definition work_dir (p : string) : string := "/work/" ++ p.

(** A tree in which everything is switched off. *)
Definition all_disabled : object :=
  [("global_data", VObj [("meta_data", VBool false)]);
   ("sites", VObj [("RefArch", VObj [("content", VBool false)])]);
   ("inventory_lists", VObj [])].

(** A tree with enabled and disabled units side by side. *)
Definition mixed_tree : object :=
  [("global_data", VObj [("meta_data", VBool false)]);
   ("sites",
    VObj [("RefArch", VObj [("content", VBool true); ("coupons", VBool false)]);
          ("SiteGenesis", VBool false)])].

(** A configuration with one violation of each kind. *)
Definition faulty_dataUnits : object :=
  [("global_data", VObj [("meta_data", VBool true); ("metadata", VBool true)]);
   ("sites",
    VObj [("RefArch", VObj [("content", VBool true); ("contents", VBool true)]);
          ("SiteGenesis", VStr "all")]);
   ("catalogs", VObj [])].

(** The configuration file that holds them. *)
Definition faulty_config : value :=
  VObj [("archive", VObj [("name", VStr "export-{date}-{timestamp}")]);
        ("dataUnits", VObj faulty_dataUnits)].

(** The example configuration of the README. *)
Definition readme_config : value :=
  VObj [("archive", VObj [("name", VStr "export-{date}-{timestamp}")]);
        ("dataUnits",
         VObj [("global_data",
                VObj [("meta_data", VBool true); ("custom_types", VBool true)]);
               ("sites",
                VObj [("RefArch",
                       VObj [("content", VBool true);
                             ("site_preferences", VBool true);
                             ("customer_groups", VBool true)])])])].

(** The context [{site: "RefArch"}]. *)
Definition refarch : Config.Context := {| Config.site := Some "RefArch" |}.

(** A child that fails with the exception in its log, on its standard
    error, and prints nothing else. *)
Definition child_already_running (args : list string) (debug : bool)
  (instance : option string) : Exporter.CommandResult :=
  {| Exporter.stdout := EmptyString;
     Exporter.stderr := "JobAlreadyRunningException: job sfcc-site-archive-export";
     Exporter.code := Some 1%Z |}.

(** A site selected with all its data next to a site with a selection. *)
Definition shorthand_sites : object :=
  [("A", VBool true); ("B", VObj [("coupons", VBool true)])].

(** ** The filter, entry by entry *)




(** ** Trees that differ in their switches only *)

(** Two values have the same units when they differ at most in the
    booleans at their leaves. *)
Unset Elimination Schemes.
Inductive same_units : value -> value -> Prop :=
| same_units_refl v : same_units v v
| same_units_bool b b' : same_units (VBool b) (VBool b')
| same_units_obj props props' :
    Forall2 (fun entry entry' =>
               fst entry = fst entry' /\ same_units (snd entry) (snd entry'))
      props props' ->
    same_units (VObj props) (VObj props').
Set Elimination Schemes.

(** ** Compiling what the filter returns *)



(** No character of the string is a comma. *)
Fixpoint comma_free (s : string) : bool :=
  match s with
  | EmptyString => true
  | String a rest => negb (Ascii.eqb a ",") && comma_free rest
  end.

(** ** The calls of the tool *)





(** [o.name] on a result whose properties may be [undefined]. *)
Fixpoint read (o : Exporter.result_object) (name : string) : option value :=
  match o with
  | [] => None
  | (k, v) :: rest => if String.eqb k name then v else read rest name
  end.


(** ** Further configurations and environments *)

(** The [dataUnits] of the README example. *)
Definition readme_dataUnits : object :=
  [("global_data",
    VObj [("meta_data", VBool true); ("custom_types", VBool true)]);
   ("sites",
    VObj [("RefArch",
           VObj [("content", VBool true);
                 ("site_preferences", VBool true);
                 ("customer_groups", VBool true)])])].

(** The README example with one unit switched off. *)
Definition readme_switched : value :=
  VObj [("archive", VObj [("name", VStr "export-{date}-{timestamp}")]);
        ("dataUnits",
         VObj [("global_data",
                VObj [("meta_data", VBool true); ("custom_types", VBool false)]);
               ("sites",
                VObj [("RefArch",
                       VObj [("content", VBool true);
                             ("site_preferences", VBool true);
                             ("customer_groups", VBool true)])])])].

(** The README example with [customer_lists] set to [null]. *)
Definition readme_null_lists : value :=
  VObj [("dataUnits",
         VObj (set_prop readme_dataUnits "customer_lists" VNull))].

(** A configuration file without [dataUnits]. *)
Definition archive_only : object :=
  [("archive", VObj [("name", VStr "export-{date}-{timestamp}")])].

(** The minimal template with a site data unit switched off. *)
Definition minimal_edited : value :=
  VObj
    [("dataUnits",
      VObj
        [("global_data",
          VObj [("meta_data", VBool true); ("custom_types", VBool true)]);
         ("sites",
          VObj
            [("YourSiteId",
              VObj [("content", VBool true);
                    ("site_preferences", VBool false);
                    ("customer_groups", VBool true)])])])].

(** A tree with a site that is [null]. *)
Definition null_site : object := [("sites", VObj [("RefArch", VNull)])].


(** A child that exits with code 0 and prints one line. *)
Definition child_done (args : list string) : Exporter.CommandResult :=
  {| Exporter.stdout := "{}";
     Exporter.stderr := EmptyString;
     Exporter.code := Some 0%Z |}.

(** The object that a child reports when it refuses the job and gives
    the path of an older archive. *)
Definition refused_output : object :=
  [("success", VBool false); ("path", VStr "/tmp/archive.zip")].

(** A reading of every text as that object. *)
Definition parse_refused (text : string) : option value :=
  Some (VObj refused_output).






(* ================================================================== *)
(** * Reasoning about values *)
(* ================================================================== *)

(** ** Loops *)

Lemma for_elems_indexed {A B : Type} (body : A -> string -> B -> A) l :
  forall i acc, for_elems body l i acc = for_props body (indexed i l) acc.
Proof.
  induction l as [|x rest IH]; intros i acc; simpl; [reflexivity|].
  apply IH.
Qed.

Lemma for_props_ext {A B : Type} (f g : A -> string -> B -> A) l :
  Forall (fun entry => forall acc, f acc (fst entry) (snd entry)
                                   = g acc (fst entry) (snd entry)) l ->
  forall acc, for_props f l acc = for_props g l acc.
Proof.
  induction 1 as [|[k x] rest Hx _ IH]; intros acc; simpl; [reflexivity|].
  simpl in Hx. rewrite Hx. apply IH.
Qed.

Lemma Forall_indexed {B : Type} (Q : B -> Prop) l :
  Forall Q l -> forall i, Forall (fun entry => Q (snd entry)) (indexed i l).
Proof.
  induction 1; intros i; simpl; constructor; auto.
Qed.

Lemma nonempty_length {A : Type} (l : list A) :
  (0 <? List.length l)%nat = nonempty l.
Proof. destruct l; reflexivity. Qed.

Lemma set_prop_nonempty o k v : nonempty (set_prop o k v) = true.
Proof.
  destruct o as [|[k' x] rest]; simpl; [reflexivity|].
  destruct (String.eqb k' k); reflexivity.
Qed.

Lemma keep_entry_nonempty l :
  forall acc, nonempty (for_props keep_entry l acc)
              = nonempty acc || existsb is_kept l.
Proof.
  induction l as [|[k x] rest IH]; intros acc; simpl.
  - now rewrite orb_false_r.
  - rewrite IH. unfold keep_entry, is_kept. simpl.
    destruct (kept x); simpl.
    + rewrite set_prop_nonempty. now rewrite orb_true_r.
    + reflexivity.
Qed.

Lemma nested_entry_step acc flag k x :
  Config.filter_nested_entry Config.filterEnabled (acc, flag) k x
  = (keep_entry acc k x, flag || is_kept (k, x)).
Proof.
  cbv [Config.filter_nested_entry keep_entry kept is_kept snd].
  destruct x as [| [|] | | | |]; rewrite ?length_map, ?nonempty_length,
    ?orb_true_r, ?orb_false_r; try reflexivity.
  - destruct (nonempty (Config.filterEnabled (VArr elems)));
      now rewrite ?orb_true_r, ?orb_false_r.
  - destruct (nonempty (Config.filterEnabled (VObj props)));
      now rewrite ?orb_true_r, ?orb_false_r.
Qed.

(** The inner loop of the source computes the same object as the outer
    loop, and [hasEnabled] tells whether it is empty. *)
Lemma nested_loop l :
  forall acc flag,
    for_props (Config.filter_nested_entry Config.filterEnabled) l (acc, flag)
    = (for_props keep_entry l acc, flag || existsb is_kept l).
Proof.
  induction l as [|[k x] rest IH]; intros acc flag.
  - simpl. now rewrite orb_false_r.
  - change (for_props (Config.filter_nested_entry Config.filterEnabled) rest
              (Config.filter_nested_entry Config.filterEnabled (acc, flag) k x)
            = (for_props keep_entry rest (keep_entry acc k x),
               flag || (is_kept (k, x) || existsb is_kept rest))).
    rewrite nested_entry_step, IH. now rewrite orb_assoc.
Qed.

Lemma filterEnabled_obj props :
  Config.filterEnabled (VObj props)
  = for_props (Config.filter_entry Config.filterEnabled) props [].
Proof. reflexivity. Qed.

Lemma filterEnabled_arr elems :
  Config.filterEnabled (VArr elems)
  = for_props (Config.filter_entry Config.filterEnabled) (indexed 0 elems) [].
Proof. simpl. apply for_elems_indexed. Qed.

(** The two nested loops of the source amount to one uniform recursion. *)
Lemma filter_entry_keep :
  forall v, forall acc key,
    Config.filter_entry Config.filterEnabled acc key v = keep_entry acc key v.
Proof.
  induction v as [| b | n | s | elems IH | props IH] using value_ind;
    intros acc key; try reflexivity.
  - destruct b; reflexivity.
  - unfold Config.filter_entry, keep_entry, kept.
    unfold for_own. rewrite for_elems_indexed, nested_loop. simpl orb.
    rewrite filterEnabled_arr.
    rewrite (for_props_ext (Config.filter_entry Config.filterEnabled) keep_entry).
    + rewrite keep_entry_nonempty. simpl orb.
      now destruct (existsb is_kept _).
    + generalize (Forall_indexed _ _ IH 0%nat).
      apply Forall_impl. intros [k x] H acc'. apply H.
  - unfold Config.filter_entry, keep_entry, kept.
    unfold for_own. rewrite nested_loop. simpl orb.
    rewrite filterEnabled_obj.
    rewrite (for_props_ext (Config.filter_entry Config.filterEnabled) keep_entry).
    + rewrite keep_entry_nonempty. simpl orb.
      now destruct (existsb is_kept _).
    + revert IH. apply Forall_impl. intros [k x] H acc'. apply H.
Qed.

Lemma for_props_skip {A B : Type} (body : A -> string -> B -> A) l :
  Forall (fun entry => forall acc, body acc (fst entry) (snd entry) = acc) l ->
  forall acc, for_props body l acc = acc.
Proof.
  induction 1 as [|[k x] rest Hx _ IH]; intros acc; simpl; [reflexivity|].
  simpl in Hx. rewrite Hx. apply IH.
Qed.

Lemma Forall_indexed_map {B C : Type} (f : B -> C) (Q : C -> Prop) l :
  (forall x, Q (f x)) ->
  forall i, Forall (fun entry => Q (snd entry)) (indexed i (map f l)).
Proof.
  intros HQ. induction l as [|x rest IH]; intros i; simpl; constructor;
    [apply HQ | apply IH].
Qed.

(** [filterEnabled] is the loop over [Object.entries(dataUnits)], for
    every argument that has entries. *)
Lemma filterEnabled_entries v :
  Config.filterEnabled v
  = for_props (Config.filter_entry Config.filterEnabled) (own_entries v) [].
Proof.
  destruct v as [| b | n | s | elems | props]; try reflexivity.
  - simpl own_entries. symmetry. apply for_props_skip.
    generalize (Forall_indexed_map (fun c => VStr (String c EmptyString))
                  (fun x => forall acc key,
                       Config.filter_entry Config.filterEnabled acc key x = acc)
                  (list_ascii_of_string s) (fun c acc key => eq_refl) 0%nat).
    apply Forall_impl. intros [k x] H acc. apply H.
  - apply filterEnabled_arr.
Qed.

Lemma filterEnabled_keep v :
  Config.filterEnabled v = for_props keep_entry (own_entries v) [].
Proof.
  rewrite filterEnabled_entries. apply for_props_ext.
  apply Forall_forall. intros [k x] _ acc. apply filter_entry_keep.
Qed.

(** ** A value is kept exactly when it has a [true] leaf *)





(** ** Keys *)

Lemma array_includes_In l x : array_includes l x = true <-> In x l.
Proof.
  unfold array_includes. rewrite existsb_exists. split.
  - intros (y & Hy & E). apply String.eqb_eq in E. now subst.
  - intros H. exists x. split; [assumption | apply String.eqb_refl].
Qed.

Lemma distinct_NoDup l : distinct l = true <-> NoDup l.
Proof.
  induction l as [|x rest IH]; simpl.
  - split; [constructor | reflexivity].
  - rewrite andb_true_iff, negb_true_iff, IH. split.
    + intros [Hx Hr]. constructor; [|assumption].
      intros Hin. apply array_includes_In in Hin. congruence.
    + inversion 1 as [|? ? Hx Hr]; subst. split; [|assumption].
      destruct (array_includes rest x) eqn:E; [|reflexivity].
      apply array_includes_In in E. contradiction.
Qed.


Lemma set_prop_keys o k v :
  map fst (set_prop o k v)
  = if array_includes (map fst o) k then map fst o else (map fst o ++ [k])%list.
Proof.
  induction o as [|[k' x] rest IH]; simpl; [reflexivity|].
  rewrite (String.eqb_sym k k').
  destruct (String.eqb k' k) eqn:E; simpl; [reflexivity|].
  rewrite IH. now destruct (array_includes (map fst rest) k).
Qed.

Lemma NoDup_snoc {A : Type} (l : list A) x :
  NoDup l -> ~ In x l -> NoDup (l ++ [x]).
Proof.
  intros Hl Hx. apply NoDup_app; [assumption | repeat constructor; auto | ].
  intros y Hy [E|[]]. subst. contradiction.
Qed.

Lemma set_prop_distinct o k v :
  distinct (map fst o) = true -> distinct (map fst (set_prop o k v)) = true.
Proof.
  rewrite set_prop_keys. intros H.
  destruct (array_includes (map fst o) k) eqn:E; [assumption|].
  apply distinct_NoDup. apply distinct_NoDup in H.
  apply NoDup_snoc; [assumption|].
  intros Hin. apply array_includes_In in Hin. congruence.
Qed.

Lemma set_prop_forallb (f : value -> bool) o k v :
  forallb (fun entry => f (snd entry)) o = true -> f v = true ->
  forallb (fun entry => f (snd entry)) (set_prop o k v) = true.
Proof.
  induction o as [|[k' x] rest IH]; simpl; intros Ho Hv.
  - now rewrite Hv.
  - apply andb_true_iff in Ho as [Hx Hr].
    destruct (String.eqb k' k); simpl.
    + now rewrite Hv, Hr.
    + now rewrite Hx, IH.
Qed.

(** ** The image of the filter *)

Lemma filtered_value_obj props :
  filtered_value (VObj props) = nonempty props && filtered_tree props.
Proof. unfold filtered_tree. simpl. now rewrite andb_assoc. Qed.

Lemma keep_loop_filtered l :
  Forall (fun entry =>
            filtered_tree (Config.filterEnabled (snd entry)) = true) l ->
  forall acc, filtered_tree acc = true ->
              filtered_tree (for_props keep_entry l acc) = true.
Proof.
  induction 1 as [|[k x] rest Hx _ IH]; intros acc Hacc; simpl; [assumption|].
  apply IH. unfold keep_entry.
  destruct (kept x) as [v'|] eqn:E; [|assumption].
  assert (Hv' : filtered_value v' = true).
  { unfold kept in E. simpl in Hx.
    destruct x as [| [|] | | | |]; try discriminate.
    - now injection E as <-.
    - destruct (nonempty (Config.filterEnabled (VArr elems))) eqn:N;
        [|discriminate].
      replace v' with (VObj (Config.filterEnabled (VArr elems))) by congruence.
      now rewrite filtered_value_obj, N, Hx.
    - destruct (nonempty (Config.filterEnabled (VObj props))) eqn:N;
        [|discriminate].
      replace v' with (VObj (Config.filterEnabled (VObj props))) by congruence.
      now rewrite filtered_value_obj, N, Hx. }
  unfold filtered_tree in *. apply andb_true_iff in Hacc as [Hd Hf].
  apply andb_true_iff. split.
  - now apply set_prop_distinct.
  - now apply set_prop_forallb.
Qed.

(** Every tree that the filter returns is a filtered tree. *)
Lemma filterEnabled_filtered v :
  filtered_tree (Config.filterEnabled v) = true.
Proof.
  induction v as [| b | n | s | elems IH | props IH] using value_ind;
    try reflexivity.
  - rewrite filterEnabled_keep. apply keep_loop_filtered; [|reflexivity].
    apply (Forall_indexed _ _ IH).
  - rewrite filterEnabled_keep. apply keep_loop_filtered; [|reflexivity].
    exact IH.
Qed.




(** ** The leaves of the filtered tree *)


Lemma lookup_absent key (l : object) :
  ~ In key (map fst l) -> lookup key l = None.
Proof.
  induction l as [|[k x] rest IH]; simpl; [reflexivity|]. intros H.
  destruct (String.eqb k key) eqn:E.
  - apply String.eqb_eq in E. tauto.
  - apply IH. tauto.
Qed.




Lemma lookup_In key (l : object) x : lookup key l = Some x -> In (key, x) l.
Proof.
  induction l as [|[k y] rest IH]; simpl; [discriminate|].
  destruct (String.eqb k key) eqn:E.
  - apply String.eqb_eq in E. intros [= ->]. left. now subst.
  - intros H. right. now apply IH.
Qed.







(* ================================================================== *)
(** * The data-unit filter *)
(* ================================================================== *)



(* ================================================================== *)
(** * The configuration validator *)
(* ================================================================== *)

Lemma push_unknown_app known message keys :
  forall errors,
    Config.push_unknown known message keys errors
    = (errors ++ map message (unknown_keys known keys))%list.
Proof.
  unfold Config.push_unknown, unknown_keys.
  induction keys as [|key rest IH]; intros errors; simpl.
  - now rewrite app_nil_r.
  - rewrite IH. destruct (negb (array_includes known key)); simpl.
    + now rewrite <- app_assoc.
    + reflexivity.
Qed.

Lemma check_site_app entry errors :
  Config.check_site errors entry = (errors ++ site_errors entry)%list.
Proof.
  destruct entry as [siteId siteConfig].
  unfold Config.check_site, site_errors. simpl fst. simpl snd.
  destruct (is_object_type siteConfig && negb (is_null siteConfig)).
  - apply push_unknown_app.
  - destruct (negb (is_boolean_type siteConfig)); [reflexivity|].
    now rewrite app_nil_r.
Qed.

Lemma check_sites_app l :
  forall errors,
    fold_left Config.check_site l errors
    = (errors ++ flat_map site_errors l)%list.
Proof.
  induction l as [|entry rest IH]; intros errors; simpl.
  - now rewrite app_nil_r.
  - now rewrite IH, check_site_app, <- app_assoc.
Qed.

(** The list of errors, for a configuration with a [dataUnits] mapping:
    one entry per violation, in the order of the three checks. *)
Lemma validation_errors_mapping config dataUnits :
  get_prop config "dataUnits" = Return (Some (VObj dataUnits)) ->
  Config.validation_errors config
  = Return
      (map Config.unknown_dataUnits_key
         (unknown_keys Config.validDataUnitKeys (map fst dataUnits))
       ++ map Config.unknown_global_data_option
            (unknown_keys Config.globalDataOptions
               (keys_if_truthy (lookup "global_data" dataUnits)))
       ++ flat_map site_errors
            (entries_if_truthy (lookup "sites" dataUnits)))%list.
Proof.
  intros H. unfold Config.validation_errors. rewrite H. simpl bind.
  simpl truthy. simpl negb. cbv iota.
  rewrite push_unknown_app. simpl app.
  unfold keys_if_truthy, entries_if_truthy.
  destruct (lookup "global_data" dataUnits) as [g|];
    destruct (lookup "sites" dataUnits) as [s|];
    try destruct (truthy g); try destruct (truthy s);
    rewrite ?push_unknown_app, ?check_sites_app; simpl bind;
    simpl flat_map; simpl (unknown_keys _ []); simpl (map _ []);
    rewrite ?app_nil_r, <- ?app_assoc; reflexivity.
Qed.

Lemma In_unknown_keys known keys key :
  In key (unknown_keys known keys) <-> In key keys /\ ~ In key known.
Proof.
  unfold unknown_keys. rewrite filter_In, negb_true_iff.
  rewrite <- (array_includes_In known key).
  destruct (array_includes known key); intuition congruence.
Qed.

Lemma In_keys_if_truthy v key :
  In key (keys_if_truthy v)
  <-> exists x, v = Some x /\ truthy x = true /\ In key (own_keys x).
Proof.
  unfold keys_if_truthy. destruct v as [x|].
  - destruct (truthy x) eqn:T; split.
    + intros H. now exists x.
    + intros (y & E & _ & H). now injection E as ->.
    + intros [].
    + intros (y & E & T' & _). injection E as ->. congruence.
  - split; [intros [] | intros (x & E & _); discriminate].
Qed.

Lemma In_entries_if_truthy v entry :
  In entry (entries_if_truthy v)
  <-> exists x, v = Some x /\ truthy x = true /\ In entry (own_entries x).
Proof.
  unfold entries_if_truthy. destruct v as [x|].
  - destruct (truthy x) eqn:T; split.
    + intros H. now exists x.
    + intros (y & E & _ & H). now injection E as ->.
    + intros [].
    + intros (y & E & T' & _). injection E as ->. congruence.
  - split; [intros [] | intros (x & E & _); discriminate].
Qed.



(** C8. A configuration that validates with no error is returned as it
    was given: the result is the argument itself, and validation never
    returns anything else. *)
Theorem validateConfig_returns_input :
  forall config : value,
    (Config.validation_errors config = Return [] ->
     Config.validateConfig config = Return config)
    /\ (forall accepted, Config.validateConfig config = Return accepted ->
                         accepted = config).
Proof.
  intros config. unfold Config.validateConfig. split.
  - intros ->. reflexivity.
  - intros accepted. destruct (Config.validation_errors config) as [errors|e];
      simpl; [|discriminate].
    destruct (0 <? List.length errors)%nat; [discriminate|].
    now intros [= <-].
Qed.

(* ================================================================== *)
(** * The archive name templater *)
(* ================================================================== *)

(** ** The leftmost occurrence of a pattern *)

Lemma strip_prefix_iff p s r : strip_prefix p s = Some r <-> s = p ++ r.
Proof.
  revert s. induction p as [|a p IH]; intros s; simpl.
  - split; [now intros [= ->] | now intros ->].
  - destruct s as [|b s]; [split; discriminate|].
    destruct (Ascii.eqb a b) eqn:E.
    + apply Ascii.eqb_eq in E. subst b. rewrite IH.
      split; [now intros -> | now intros [= ->]].
    + split; [discriminate|]. intros [= <- _].
      now rewrite Ascii.eqb_refl in E.
Qed.

Lemma find_first_sound p s before after :
  find_first p s = Some (before, after) -> s = before ++ p ++ after.
Proof.
  revert before. induction s as [|c s IH]; intros before; simpl.
  - destruct (strip_prefix p EmptyString) as [r|] eqn:E; [|discriminate].
    intros [= <- <-]. now apply strip_prefix_iff in E.
  - destruct (strip_prefix p (String c s)) as [r|] eqn:E.
    + intros [= <- <-]. now apply strip_prefix_iff in E.
    + destruct (find_first p s) as [[b a]|]; [|discriminate].
      intros [= <- <-]. simpl. f_equal. now apply IH.
Qed.


Lemma find_first_none p s :
  find_first p s = None -> forall before after, s <> before ++ p ++ after.
Proof.
  induction s as [|c s IH]; simpl.
  - destruct (strip_prefix p EmptyString) as [r|] eqn:E; [discriminate|].
    intros _ [|c' b] a Hs; [|discriminate].
    simpl in Hs. apply strip_prefix_iff in Hs. congruence.
  - destruct (strip_prefix p (String c s)) as [r|] eqn:E; [discriminate|].
    destruct (find_first p s) as [[b a]|] eqn:F; [discriminate|].
    intros _ [|c' b'] a' Hs.
    + simpl in Hs. apply strip_prefix_iff in Hs. congruence.
    + simpl in Hs. injection Hs as -> Hs. now apply (IH eq_refl b' a').
Qed.

(** ** Replacement texts without a dollar sign *)




Lemma find_first_occurs p s :
  occurs p s <-> exists before after, find_first p s = Some (before, after).
Proof.
  split.
  - intros (b & a & Hs). destruct (find_first p s) as [[b' a']|] eqn:E.
    + now exists b', a'.
    + now apply (find_first_none _ _ E) in Hs.
  - intros (b & a & E). exists b, a. now apply find_first_sound.
Qed.

Lemma includes_occurs s p : includes s p = true <-> occurs p s.
Proof.
  rewrite find_first_occurs. unfold includes.
  destruct (find_first p s) as [[b a]|]; split; try discriminate.
  - intros _. now exists b, a.
  - reflexivity.
  - intros (b & a & E). discriminate.
Qed.


Lemma replace_absent s pattern replacement :
  includes s pattern = false -> replace s pattern replacement = s.
Proof.
  unfold includes, replace.
  destruct (find_first pattern s) as [[b a]|]; [discriminate | reflexivity].
Qed.



(* ================================================================== *)
(** * The command compiler *)
(* ================================================================== *)

(** ** Sets of strings *)

Lemma In_set_add s x y : In y (set_add s x) <-> In y s \/ y = x.
Proof.
  unfold set_add. destruct (array_includes s x) eqn:E.
  - apply array_includes_In in E. split; [auto|]. intros [H| ->]; assumption.
  - rewrite in_app_iff. simpl. intuition.
Qed.

Lemma NoDup_set_add s x : NoDup s -> NoDup (set_add s x).
Proof.
  intros H. unfold set_add. destruct (array_includes s x) eqn:E; [assumption|].
  apply NoDup_snoc; [assumption|]. intros Hin.
  apply array_includes_In in Hin. congruence.
Qed.

Lemma is_true_iff v : is_true v = true <-> v = VBool true.
Proof.
  destruct v as [| [|] | | | |]; simpl; split; congruence.
Qed.

Lemma In_add_enabled entries :
  forall acc key,
    In key (add_enabled acc entries)
    <-> In key acc \/ In (key, VBool true) entries.
Proof.
  unfold add_enabled.
  induction entries as [|[k x] rest IH]; intros acc key; simpl.
  - tauto.
  - rewrite IH. destruct (is_true x) eqn:E.
    + apply is_true_iff in E. subst x. rewrite In_set_add.
      split.
      * intros [[H| ->]|H]; auto.
      * intros [H|[Heq|H]]; auto. injection Heq as ->. auto.
    + split; [tauto|]. intros [H|[Heq|H]]; auto.
      injection Heq as _ Hx. subst x. discriminate.
Qed.

Lemma NoDup_add_enabled entries :
  forall acc, NoDup acc -> NoDup (add_enabled acc entries).
Proof.
  unfold add_enabled.
  induction entries as [|[k x] rest IH]; intros acc H; simpl; [assumption|].
  apply IH. destruct (is_true x); [now apply NoDup_set_add | assumption].
Qed.

Lemma In_site_data_union siteConfigs :
  forall acc key,
    In key (site_data_union acc siteConfigs)
    <-> In key acc
        \/ exists siteConfig,
            In siteConfig siteConfigs
            /\ is_object_type siteConfig = true
            /\ In (key, VBool true) (own_entries siteConfig).
Proof.
  unfold site_data_union.
  induction siteConfigs as [|c rest IH]; intros acc key; simpl.
  - split; [auto|]. intros [H|(c & [] & _)]. assumption.
  - rewrite IH. destruct (is_object_type c) eqn:T.
    + rewrite In_add_enabled. split.
      * intros [[H|H]|(c' & H1 & H2 & H3)]; auto.
        -- right. exists c. auto.
        -- right. exists c'. auto.
      * intros [H|(c' & [<-|H1] & H2 & H3)]; auto.
        right. exists c'. auto.
    + split.
      * intros [H|(c' & H1 & H2 & H3)]; auto. right. exists c'. auto.
      * intros [H|(c' & [<-|H1] & H2 & H3)]; auto; [congruence|].
        right. exists c'. auto.
Qed.

Lemma NoDup_site_data_union siteConfigs :
  forall acc, NoDup acc -> NoDup (site_data_union acc siteConfigs).
Proof.
  unfold site_data_union.
  induction siteConfigs as [|c rest IH]; intros acc H; simpl; [assumption|].
  apply IH. destruct (is_object_type c); [now apply NoDup_add_enabled | assumption].
Qed.

Lemma collect_sites siteConfigs :
  forallb (fun c => negb (is_null c)) siteConfigs = true ->
  forall acc,
    foldM Exporter.collect_site_data siteConfigs acc
    = Return (site_data_union acc siteConfigs).
Proof.
  unfold site_data_union.
  induction siteConfigs as [|c rest IH]; intros H acc; simpl; [reflexivity|].
  simpl in H. apply andb_true_iff in H as [Hc Hr].
  unfold Exporter.collect_site_data at 1. unfold Object_entries.
  apply negb_true_iff in Hc. rewrite Hc.
  destruct (is_object_type c); simpl bind; now apply IH.
Qed.

(** ** The layout of the argument list *)

Lemma filtered_value_not_null v : filtered_value v = true -> is_null v = false.
Proof. destruct v; simpl; congruence. Qed.

Lemma filtered_lookup name props v :
  forallb (fun entry => filtered_value (snd entry)) props = true ->
  lookup name props = Some v -> filtered_value v = true.
Proof.
  induction props as [|[k x] rest IH]; simpl; [discriminate|].
  intros H. apply andb_true_iff in H as [Hx Hr].
  destruct (String.eqb k name); [now intros [= <-] | now apply IH].
Qed.

Lemma filtered_no_null_site dataUnits :
  filtered_tree dataUnits = true -> no_null_site dataUnits = true.
Proof.
  unfold filtered_tree, no_null_site, entries_if_truthy. intros H.
  apply andb_true_iff in H as [_ Hf].
  destruct (lookup "sites" dataUnits) as [s|] eqn:E; [|reflexivity].
  apply (filtered_lookup _ _ _ Hf) in E.
  destruct s as [| b | | | |props]; try discriminate.
  - now destruct b.
  - simpl truthy. cbv iota. simpl own_entries.
    rewrite filtered_value_obj in E. apply andb_true_iff in E as [_ E].
    unfold filtered_tree in E. apply andb_true_iff in E as [_ E].
    rewrite forallb_forall in E |- *. intros c Hc.
    apply in_map_iff in Hc as (entry & <- & Hin).
    apply negb_true_iff, filtered_value_not_null. now apply E.
Qed.

Lemma flag_push (args : list string) name values :
  (if (0 <? List.length values)%nat
   then (args ++ [name; join "," values])%list else args)
  = (args ++ flag name values)%list.
Proof.
  destruct values; simpl; [now rewrite app_nil_r | reflexivity].
Qed.

Lemma enabled_flag_push (args : list string) name (v : option value) :
  match v with
  | Some x =>
      if truthy x && (0 <? List.length (own_keys x))%nat then
        if (0 <? List.length (Exporter.enabled_keys (own_entries x)))%nat
        then (args ++ [name; join "," (Exporter.enabled_keys (own_entries x))])%list
        else args
      else args
  | None => args
  end
  = (args ++ flag name (Exporter.enabled_keys (entries_if_truthy v)))%list.
Proof.
  unfold entries_if_truthy. destruct v as [x|]; [|now rewrite app_nil_r].
  destruct (truthy x); simpl andb; [|now rewrite app_nil_r].
  unfold own_keys. rewrite length_map.
  destruct (own_entries x) as [|entry rest] eqn:E; [now rewrite app_nil_r|].
  rewrite <- E. change (0 <? List.length (entry :: rest))%nat with true.
  cbv iota. rewrite E. apply flag_push.
Qed.

(** The argument list, section by section, for a tree without a [null]
    site. *)
Lemma buildExportArgs_layout path_resolve dataUnits exportOptions :
  no_null_site dataUnits = true ->
  Exporter.buildExportArgs path_resolve (VObj dataUnits) exportOptions
  = Return
      (preamble path_resolve exportOptions
       ++ flag "--global-data"
            (Exporter.enabled_keys
               (entries_if_truthy (lookup "global_data" dataUnits)))
       ++ site_flags (lookup "sites" dataUnits)
       ++ flag "--inventory-list"
            (Exporter.enabled_keys
               (entries_if_truthy (lookup "inventory_lists" dataUnits))))%list.
Proof.
  intros Hnull. unfold Exporter.buildExportArgs. simpl get_prop. simpl bind.
  rewrite !enabled_flag_push.
  set (args := (_ ++ flag "--global-data" _)%list).
  assert (Hsites :
    match lookup "sites" dataUnits with
    | Some sites =>
        if truthy sites && (0 <? List.length (own_keys sites))%nat
        then
          allSiteData <- foldM Exporter.collect_site_data (own_values sites) [] ;;
          (if (0 <? List.length allSiteData)%nat
           then Return (((args ++ ["--site"; join "," (own_keys sites)])
                         ++ ["--site-data"; join "," allSiteData])%list)
           else Return (args ++ ["--site"; join "," (own_keys sites)])%list)
        else Return args
    | None => Return args
    end = Return (args ++ site_flags (lookup "sites" dataUnits))%list).
  { unfold no_null_site in Hnull. unfold site_flags.
    unfold entries_if_truthy in *.
    destruct (lookup "sites" dataUnits) as [s|]; [|now rewrite app_nil_r].
    destruct (truthy s); simpl andb; [|now rewrite app_nil_r].
    unfold own_keys, own_values. rewrite length_map.
    destruct (own_entries s) as [|entry rest] eqn:E; [now rewrite app_nil_r|].
    rewrite <- E in *.
    replace (0 <? List.length (own_entries s))%nat with true
      by (now rewrite E).
    rewrite collect_sites by assumption. simpl bind.
    destruct (site_data_union [] (map snd (own_entries s))); simpl;
      now rewrite <- ?app_assoc. }
  unfold bind at 1.
  match goal with
  | |- match ?m with _ => _ end = _ => change m with
      (match lookup "sites" dataUnits with
       | Some sites =>
           if truthy sites && (0 <? List.length (own_keys sites))%nat
           then
             allSiteData <- foldM Exporter.collect_site_data (own_values sites) [] ;;
             (if (0 <? List.length allSiteData)%nat
              then Return (((args ++ ["--site"; join "," (own_keys sites)])
                            ++ ["--site-data"; join "," allSiteData])%list)
              else Return (args ++ ["--site"; join "," (own_keys sites)])%list)
           else Return args
       | None => Return args
       end)
  end.
  rewrite Hsites. rewrite enabled_flag_push. subst args.
  unfold preamble.
  destruct (Exporter.default false (Exporter.keepArchive exportOptions));
    rewrite <- ?app_assoc; reflexivity.
Qed.

Lemma filtered_sites dataUnits sites :
  filtered_tree dataUnits = true ->
  lookup "sites" dataUnits = Some (VObj sites) ->
  sites <> []
  /\ forall siteId siteConfig,
      In (siteId, siteConfig) sites ->
      siteConfig = VBool true
      \/ exists props, siteConfig = VObj props /\ props <> [].
Proof.
  unfold filtered_tree. intros H E. apply andb_true_iff in H as [_ Hf].
  apply (filtered_lookup _ _ _ Hf) in E. rewrite filtered_value_obj in E.
  apply andb_true_iff in E as [Hne E]. unfold filtered_tree in E.
  apply andb_true_iff in E as [_ E]. split.
  - now destruct sites.
  - intros siteId siteConfig Hin. rewrite forallb_forall in E.
    specialize (E _ Hin). simpl in E.
    destruct siteConfig as [| [|] | | | |props]; try discriminate; [now left|].
    right. exists props. split; [reflexivity|].
    rewrite filtered_value_obj in E. now destruct props.
Qed.

(** The site section of a filtered tree with a [sites] mapping. *)
Lemma site_flags_mapping sites :
  sites <> [] ->
  site_flags (Some (VObj sites))
  = (["--site"; join "," (map fst sites)]
     ++ flag "--site-data" (site_data_union [] (map snd sites)))%list.
Proof.
  unfold site_flags. simpl entries_if_truthy.
  destruct sites; [contradiction | reflexivity].
Qed.

(** C1. For a filtered tree with a non-empty [sites] mapping the site
    section of the argument list is one [--site] flag with the
    comma-joined site identifiers, followed by one [--site-data] flag
    (absent when there is nothing to list) with the comma-joined union,
    without repetition, of the keys enabled in any of the sites; so
    sites [{A: {content: true}, B: {coupons: true}}] compile to
    [--site A,B --site-data content,coupons]. *)
Theorem buildExportArgs_site_union :
  (forall (path_resolve : string -> string) (dataUnits : object)
          (exportOptions : Exporter.ExportOptions) (sites : object),
      filtered_tree dataUnits = true ->
      lookup "sites" dataUnits = Some (VObj sites) ->
      sites <> [] ->
      exists globalData allSiteData inventoryIds : list string,
        Exporter.buildExportArgs path_resolve (VObj dataUnits) exportOptions
        = Return (preamble path_resolve exportOptions
                  ++ flag "--global-data" globalData
                  ++ ["--site"; join "," (map fst sites)]
                  ++ flag "--site-data" allSiteData
                  ++ flag "--inventory-list" inventoryIds)%list
        /\ NoDup allSiteData
        /\ forall key,
            In key allSiteData
            <-> exists siteId props,
                In (siteId, VObj props) sites /\ In (key, VBool true) props)
  /\ (forall (path_resolve : string -> string)
             (exportOptions : Exporter.ExportOptions),
         Exporter.buildExportArgs path_resolve
           (VObj [("sites",
                   VObj [("A", VObj [("content", VBool true)]);
                         ("B", VObj [("coupons", VBool true)])])])
           exportOptions
         = Return (preamble path_resolve exportOptions
                   ++ ["--site"; "A,B"; "--site-data"; "content,coupons"])%list).
Proof.
  split.
  - intros path_resolve dataUnits exportOptions sites Hf Hs Hne.
    exists (Exporter.enabled_keys
              (entries_if_truthy (lookup "global_data" dataUnits))),
      (site_data_union [] (map snd sites)),
      (Exporter.enabled_keys
         (entries_if_truthy (lookup "inventory_lists" dataUnits))).
    split; [|split].
    + rewrite buildExportArgs_layout by now apply filtered_no_null_site.
      rewrite Hs, site_flags_mapping by assumption.
      now rewrite <- !app_assoc.
    + apply NoDup_site_data_union. constructor.
    + intros key. rewrite In_site_data_union.
      destruct (filtered_sites _ _ Hf Hs) as [_ Hshape]. split.
      * intros [[]|(c & Hin & Hty & Hk)].
        apply in_map_iff in Hin as ([siteId c'] & Hc & Hin). simpl in Hc. subst c'.
        destruct (Hshape _ _ Hin) as [-> | (props & -> & _)]; [discriminate|].
        now exists siteId, props.
      * intros (siteId & props & Hin & Hk). right. exists (VObj props).
        split; [|now split].
        apply in_map_iff. now exists (siteId, VObj props).
  - intros path_resolve exportOptions.
    rewrite buildExportArgs_layout by reflexivity. reflexivity.
Qed.


(** ** Properties that the compiler does not read *)

Lemma lookup_set_prop_other name key v props :
  name <> key -> lookup name (set_prop props key v) = lookup name props.
Proof.
  intros Hne. induction props as [|[k x] rest IH]; simpl.
  - destruct (String.eqb key name) eqn:E; [|reflexivity].
    apply String.eqb_eq in E. congruence.
  - destruct (String.eqb k key) eqn:E; simpl.
    + apply String.eqb_eq in E. subst k.
      destruct (String.eqb key name) eqn:E'; [|reflexivity].
      apply String.eqb_eq in E'. congruence.
    + now rewrite IH.
Qed.

Lemma lookup_delete_prop_other name key props :
  name <> key -> lookup name (delete_prop props key) = lookup name props.
Proof.
  intros Hne. induction props as [|[k x] rest IH]; simpl; [reflexivity|].
  destruct (String.eqb k key) eqn:E; simpl.
  - apply String.eqb_eq in E. subst k.
    destruct (String.eqb key name) eqn:E'; [|assumption].
    apply String.eqb_eq in E'. congruence.
  - now rewrite IH.
Qed.

(** The compiler reads three properties of the tree and no other. *)
Lemma buildExportArgs_reads path_resolve dataUnits dataUnits' exportOptions :
  lookup "global_data" dataUnits = lookup "global_data" dataUnits' ->
  lookup "sites" dataUnits = lookup "sites" dataUnits' ->
  lookup "inventory_lists" dataUnits = lookup "inventory_lists" dataUnits' ->
  Exporter.buildExportArgs path_resolve (VObj dataUnits) exportOptions
  = Exporter.buildExportArgs path_resolve (VObj dataUnits') exportOptions.
Proof.
  intros Hg Hs Hi. unfold Exporter.buildExportArgs. simpl get_prop.
  now rewrite Hg, Hs, Hi.
Qed.

(** C9. The compiler never reads [customer_lists]: setting the
    property to any value, or deleting it, leaves the compiled argument
    list as it was, and a tree with that property alone compiles to the
    options' part of the list, without any data-selection flag. *)
Theorem buildExportArgs_ignores_customer_lists :
  forall (path_resolve : string -> string)
         (exportOptions : Exporter.ExportOptions),
    (forall (dataUnits : object) (customer_lists : value),
        Exporter.buildExportArgs path_resolve
          (VObj (set_prop dataUnits "customer_lists" customer_lists))
          exportOptions
        = Exporter.buildExportArgs path_resolve (VObj dataUnits) exportOptions)
    /\ (forall dataUnits : object,
           Exporter.buildExportArgs path_resolve
             (VObj (delete_prop dataUnits "customer_lists")) exportOptions
           = Exporter.buildExportArgs path_resolve (VObj dataUnits)
               exportOptions)
    /\ (forall customer_lists : value,
           Exporter.buildExportArgs path_resolve
             (VObj [("customer_lists", customer_lists)]) exportOptions
           = Return (preamble path_resolve exportOptions)).
Proof.
  intros path_resolve exportOptions. split; [|split].
  - intros dataUnits customer_lists.
    apply buildExportArgs_reads; apply lookup_set_prop_other; discriminate.
  - intros dataUnits.
    apply buildExportArgs_reads; apply lookup_delete_prop_other; discriminate.
  - intros customer_lists.
    rewrite buildExportArgs_layout by reflexivity. simpl.
    now rewrite app_nil_r.
Qed.

(** C10. A site given as the boolean [true] is named by the [--site]
    flag and adds nothing to the [--site-data] union: every key of the
    union is enabled in a site given as a mapping, and when every site
    is [true] there is no [--site-data] flag; so sites [{A: true}]
    compile to [--site A] alone. *)
Theorem buildExportArgs_site_true :
  (forall (path_resolve : string -> string) (dataUnits : object)
          (exportOptions : Exporter.ExportOptions) (sites : object)
          (siteId : string),
      filtered_tree dataUnits = true ->
      lookup "sites" dataUnits = Some (VObj sites) ->
      In (siteId, VBool true) sites ->
      exists (before after allSiteData : list string) (others : object),
        Exporter.buildExportArgs path_resolve (VObj dataUnits) exportOptions
        = Return (before
                  ++ ["--site"; join "," (map fst sites)]
                  ++ flag "--site-data" allSiteData
                  ++ after)%list
        /\ In siteId (map fst sites)
        /\ others = filter (fun entry => negb (is_true (snd entry))) sites
        /\ allSiteData = site_data_union [] (map snd others)
        /\ (forall key,
               In key allSiteData ->
               exists other props,
                 In (other, VObj props) sites /\ In (key, VBool true) props)
        /\ ((forall id siteConfig,
                In (id, siteConfig) sites -> siteConfig = VBool true) ->
            allSiteData = []))
  /\ (forall (path_resolve : string -> string)
             (exportOptions : Exporter.ExportOptions),
         Exporter.buildExportArgs path_resolve
           (VObj [("sites", VObj [("A", VBool true)])]) exportOptions
         = Return (preamble path_resolve exportOptions ++ ["--site"; "A"])%list).
Proof.
  assert (skip : forall (sites : object) acc,
             site_data_union acc (map snd sites)
             = site_data_union acc
                 (map snd (filter (fun entry => negb (is_true (snd entry)))
                             sites))).
  { unfold site_data_union. induction sites as [|[k c] rest IH]; intros acc;
      simpl; [reflexivity|].
    destruct (is_true c) eqn:E; simpl.
    - apply is_true_iff in E. subst c. simpl. apply IH.
    - apply IH. }
  split.
  - intros path_resolve dataUnits exportOptions sites siteId Hf Hs Hin.
    destruct (filtered_sites _ _ Hf Hs) as [Hne Hshape].
    exists (preamble path_resolve exportOptions
            ++ flag "--global-data"
                 (Exporter.enabled_keys
                    (entries_if_truthy (lookup "global_data" dataUnits))))%list,
      (flag "--inventory-list"
         (Exporter.enabled_keys
            (entries_if_truthy (lookup "inventory_lists" dataUnits)))),
      (site_data_union [] (map snd sites)),
      (filter (fun entry => negb (is_true (snd entry))) sites).
    assert (Hmem : forall key,
               In key (site_data_union [] (map snd sites)) ->
               exists other props,
                 In (other, VObj props) sites /\ In (key, VBool true) props).
    { intros key Hk. apply In_site_data_union in Hk
        as [[]|(c & Hc & Hty & Hk)].
      apply in_map_iff in Hc as ([other c'] & Hc & Hc'). simpl in Hc. subst c'.
      destruct (Hshape _ _ Hc') as [-> | (props & -> & _)]; [discriminate|].
      now exists other, props. }
    repeat split.
    + rewrite buildExportArgs_layout by now apply filtered_no_null_site.
      rewrite Hs, site_flags_mapping by assumption.
      now rewrite <- !app_assoc.
    + apply in_map_iff. now exists (siteId, VBool true).
    + apply skip.
    + exact Hmem.
    + intros Hall.
      destruct (site_data_union [] (map snd sites)) as [|key rest] eqn:E;
        [reflexivity|].
      destruct (Hmem key (or_introl eq_refl)) as (other & props & Ho & _).
      specialize (Hall _ _ Ho). discriminate.
  - intros path_resolve exportOptions.
    rewrite buildExportArgs_layout by reflexivity. reflexivity.
Qed.

(* ================================================================== *)
(** * The interpretation of a failed export *)
(* ================================================================== *)

Lemma examined_output_fullOutput result :
  (if negb (String.eqb (Exporter.stdout result) EmptyString)
   then Exporter.stdout result
   else if negb (String.eqb (Exporter.stderr result) EmptyString)
        then Exporter.stderr result
        else EmptyString)
  = examined_output result.
Proof.
  unfold examined_output.
  destruct (String.eqb (Exporter.stdout result) EmptyString); simpl;
    [|reflexivity].
  destruct (String.eqb (Exporter.stderr result) EmptyString) eqn:E; simpl;
    [|reflexivity].
  apply String.eqb_eq in E. now symmetry.
Qed.

Lemma executeSiteExport_failure path_resolve JSON_parse executeB2cCommand
      dataUnits options result :
  export_command_result path_resolve executeB2cCommand dataUnits options
  = Return result ->
  Exporter.code result <> Some 0%Z ->
  Exporter.executeSiteExport path_resolve JSON_parse true executeB2cCommand
    dataUnits options
  = Throw (Exporter.export_failure JSON_parse result).
Proof.
  unfold export_command_result, Exporter.executeSiteExport. simpl negb.
  cbv iota.
  destruct (Exporter.buildExportArgs _ _ _) as [args|e]; simpl bind;
    [|discriminate].
  intros [= <-] Hcode.
  destruct (Exporter.code _) as [[| |]|]; try reflexivity. congruence.
Qed.

(** C6, as the claim states it, fails when the standard output is not
    empty: the exception named in the standard error is not looked for,
    and the generic error is thrown. *)
Lemma executeSiteExport_ignores_stderr :
  includes
    (Exporter.stderr (child_with_both_streams [] false None))
    "JobAlreadyRunningException" = true
  /\ Exporter.executeSiteExport (fun p => p) not_json true
       child_with_both_streams sample_tree no_options
     = Throw (Error (VStr "Export failed"))
  /\ Exporter.executeSiteExport (fun p => p) not_json true
       child_with_both_streams sample_tree no_options
     <> Throw (Error (VStr Exporter.job_already_running)).
Proof.
  split; [reflexivity|]. split; [reflexivity|]. discriminate.
Qed.

(** C6, amended.  When the child exits with a code other than 0, the
    output examined is the standard output, or the standard error when
    the standard output is empty; if [JobAlreadyRunningException]
    occurs anywhere in it, [executeSiteExport] throws the
    job-already-running error whatever the log lines hold, and only
    otherwise the error that the scan of the log lines finds. *)
Theorem executeSiteExport_job_already_running :
  forall (path_resolve : string -> string)
         (JSON_parse : string -> option value)
         (executeB2cCommand : list string -> bool -> option string
                              -> Exporter.CommandResult)
         (dataUnits : value) (options : Exporter.ExportOptions)
         (result : Exporter.CommandResult),
    export_command_result path_resolve executeB2cCommand dataUnits options
    = Return result ->
    Exporter.code result <> Some 0%Z ->
    (includes (examined_output result) "JobAlreadyRunningException" = true ->
     Exporter.executeSiteExport path_resolve JSON_parse true executeB2cCommand
       dataUnits options
     = Throw (Error (VStr Exporter.job_already_running)))
    /\ (includes (examined_output result) "JobAlreadyRunningException" = false ->
        Exporter.executeSiteExport path_resolve JSON_parse true
          executeB2cCommand dataUnits options
        = Throw
            (Error
               (Exporter.scan_lines JSON_parse
                  (filter trim_nonempty
                     (split (ascii_of_nat 10) (examined_output result)))
                  (VStr "Export failed")))).
Proof.
  intros path_resolve JSON_parse executeB2cCommand dataUnits options result
    Hrun Hcode.
  rewrite (executeSiteExport_failure _ _ _ _ _ _ Hrun Hcode).
  unfold Exporter.export_failure. rewrite examined_output_fullOutput.
  split; intros ->; reflexivity.
Qed.

(* ================================================================== *)
(** * The theorems at work on concrete configurations *)
(* ================================================================== *)

Lemma buildExportArgs_site_union_witness :
  filtered_tree two_sites = true
  /\ exists globalData allSiteData inventoryIds : list string,
      Exporter.buildExportArgs work_dir (VObj two_sites) no_options
      = Return (preamble work_dir no_options
                ++ flag "--global-data" globalData
                ++ ["--site"; join "," (map fst two_sites_mapping)]
                ++ flag "--site-data" allSiteData
                ++ flag "--inventory-list" inventoryIds)%list
      /\ NoDup allSiteData
      /\ forall key,
          In key allSiteData
          <-> exists siteId props,
              In (siteId, VObj props) two_sites_mapping
              /\ In (key, VBool true) props.
Proof.
  split; [reflexivity|].
  apply (proj1 buildExportArgs_site_union work_dir two_sites no_options
           two_sites_mapping); [reflexivity | reflexivity | discriminate].
Defined.




Lemma validateConfig_returns_input_witness :
  Config.validation_errors readme_config = Return []
  /\ Config.validateConfig readme_config = Return readme_config.
Proof.
  split; [reflexivity|].
  apply (proj1 (validateConfig_returns_input readme_config)). reflexivity.
Defined.


Lemma executeSiteExport_job_already_running_witness :
  Exporter.code (child_already_running [] false None) <> Some 0%Z
  /\ includes (examined_output (child_already_running [] false None))
       "JobAlreadyRunningException" = true
  /\ Exporter.executeSiteExport work_dir not_json true child_already_running
       sample_tree no_options
     = Throw (Error (VStr Exporter.job_already_running)).
Proof.
  split; [discriminate|]. split; [reflexivity|].
  apply (proj1 (executeSiteExport_job_already_running work_dir not_json
                  child_already_running sample_tree no_options
                  (child_already_running [] false None)
                  eq_refl ltac:(discriminate))).
  reflexivity.
Defined.

Lemma buildExportArgs_site_true_witness :
  filtered_tree [("sites", VObj shorthand_sites)] = true
  /\ In ("A", VBool true) shorthand_sites
  /\ exists (before after allSiteData : list string) (others : object),
      Exporter.buildExportArgs work_dir (VObj [("sites", VObj shorthand_sites)])
        no_options
      = Return (before
                ++ ["--site"; join "," (map fst shorthand_sites)]
                ++ flag "--site-data" allSiteData
                ++ after)%list
      /\ In "A" (map fst shorthand_sites)
      /\ others = filter (fun entry => negb (is_true (snd entry))) shorthand_sites
      /\ allSiteData = site_data_union [] (map snd others)
      /\ (forall key,
             In key allSiteData ->
             exists other props,
               In (other, VObj props) shorthand_sites
               /\ In (key, VBool true) props)
      /\ ((forall id siteConfig,
              In (id, siteConfig) shorthand_sites -> siteConfig = VBool true) ->
          allSiteData = []).
Proof.
  split; [reflexivity|]. split; [now left|].
  apply (proj1 buildExportArgs_site_true work_dir
           [("sites", VObj shorthand_sites)] no_options shorthand_sites "A");
    [reflexivity | reflexivity | now left].
Defined.

(** ** The embedding evaluated *)

Example generateArchiveName_sample :
  Config.generateArchiveName sample_clock
    "export-{date}-{time}-{timestamp}-{site}-{date}-{foo}" Config.no_context
  = "export-2026-11-02-10-30-15-1793611815123-all-{date}-{foo}".
Proof. reflexivity. Qed.

Example buildExportArgs_two_sites :
  Exporter.buildExportArgs work_dir (VObj two_sites) no_options
  = Return ["job"; "export"; "--output"; "/work/./exports"; "--timeout"; "600";
            "--zip-only"; "--global-data"; "meta_data,custom_types";
            "--site"; "A,B"; "--site-data"; "content,coupons"].
Proof. reflexivity. Qed.

Example buildExportArgs_null_site :
  Exporter.buildExportArgs work_dir (VObj [("sites", VObj [("A", VNull)])])
    no_options
  = Throw TypeError.
Proof. reflexivity. Qed.

Example filterEnabledDataUnits_faulty :
  Config.filterEnabledDataUnits (VObj faulty_dataUnits)
  = Return
      (VObj [("global_data",
              VObj [("meta_data", VBool true); ("metadata", VBool true)]);
             ("sites",
              VObj [("RefArch",
                     VObj [("content", VBool true); ("contents", VBool true)])])]).
Proof. reflexivity. Qed.

Example validation_errors_faulty :
  Config.validation_errors faulty_config
  = Return [Config.unknown_dataUnits_key "catalogs";
            Config.unknown_global_data_option "metadata";
            Config.unknown_site_data_option "RefArch" "contents";
            Config.invalid_site_configuration "SiteGenesis"].
Proof. reflexivity. Qed.

Example filterEnabledDataUnits_all_disabled :
  Config.filterEnabledDataUnits (VObj all_disabled) = Return (VObj []).
Proof. reflexivity. Qed.

Example filterEnabledDataUnits_mixed :
  Config.filterEnabledDataUnits (VObj mixed_tree)
  = Return (VObj [("sites", VObj [("RefArch", VObj [("content", VBool true)])])]).
Proof. reflexivity. Qed.

(* ================================================================== *)
(** * More on the data-unit filter *)
(* ================================================================== *)





(* ================================================================== *)
(** * More on the configuration validator *)
(* ================================================================== *)

Lemma validateConfig_of_errors config errors :
  Config.validation_errors config = Return errors ->
  Config.validateConfig config
  = match errors with
    | [] => Return config
    | _ => Throw (Error (VStr (Config.validation_failed errors)))
    end.
Proof.
  intros E. unfold Config.validateConfig. rewrite E. simpl bind.
  now destruct errors.
Qed.

(** X3. The edges of the [dataUnits] check: a [null] configuration
    makes [validateConfig] throw a TypeError; a configuration whose
    [dataUnits] is absent or falsy is rejected with the one error that
    asks for the property; a [dataUnits] that is truthy and has no key of
    its own ([true], a number other than 0, an empty array, an empty
    object) is accepted. *)
Theorem validateConfig_dataUnits_edges :
  Config.validateConfig VNull = Throw TypeError
  /\ (forall props : object,
         truthy_opt (lookup "dataUnits" props) = false ->
         Config.validateConfig (VObj props)
         = Throw (Error (VStr (Config.validation_failed
                                 [Config.missing_dataUnits]))))
  /\ (forall (props : object) (dataUnits : value),
         lookup "dataUnits" props = Some dataUnits ->
         truthy dataUnits = true ->
         own_keys dataUnits = [] ->
         Config.validateConfig (VObj props) = Return (VObj props)).
Proof.
  split; [reflexivity|]. split.
  - intros props H.
    apply (validateConfig_of_errors _ [Config.missing_dataUnits]).
    unfold Config.validation_errors. simpl get_prop. simpl bind.
    destruct (lookup "dataUnits" props) as [d|]; [|reflexivity].
    simpl in H. now rewrite H.
  - intros props dataUnits L T K.
    apply (validateConfig_of_errors _ []).
    unfold Config.validation_errors. simpl get_prop. simpl bind.
    rewrite L, T. simpl negb. cbv iota.
    rewrite push_unknown_app, K. simpl.
    destruct dataUnits as [| | | s | elems | entries]; try discriminate;
      try reflexivity.
    destruct entries; [reflexivity | cbv in K; discriminate K].
Qed.

(** ** Switching units on and off *)

Lemma same_units_top_keys (props props' : object) :
  Forall2 (fun entry entry' =>
             fst entry = fst entry' /\ same_units (snd entry) (snd entry'))
    props props' ->
  map fst props = map fst props'.
Proof.
  induction 1 as [|e e' l l' [E _] _ IH]; simpl; [reflexivity|].
  now rewrite E, IH.
Qed.

Lemma same_units_own_keys v v' : same_units v v' -> own_keys v = own_keys v'.
Proof.
  intros H. inversion H as [| |props props' F]; subst; try reflexivity.
  now apply same_units_top_keys.
Qed.

Lemma same_units_kind v v' :
  same_units v v' ->
  is_mapping v = is_mapping v' /\ is_boolean_type v = is_boolean_type v'.
Proof. intros H. inversion H; subst; now split. Qed.

Lemma same_units_keys_if_truthy v v' :
  same_units v v' -> keys_if_truthy (Some v) = keys_if_truthy (Some v').
Proof.
  intros H. pose proof (same_units_own_keys _ _ H) as K.
  inversion H; subst; simpl; try reflexivity.
  - now destruct b, b'.
  - exact K.
Qed.

Lemma same_units_site_errors siteId c c' :
  same_units c c' -> site_errors (siteId, c) = site_errors (siteId, c').
Proof.
  intros H. unfold site_errors. simpl fst. simpl snd.
  destruct (same_units_kind _ _ H) as [M B]. unfold is_mapping in M.
  now rewrite M, B, (same_units_own_keys _ _ H).
Qed.

Lemma same_units_sites_errors s s' :
  same_units s s' ->
  flat_map site_errors (entries_if_truthy (Some s))
  = flat_map site_errors (entries_if_truthy (Some s')).
Proof.
  intros H. inversion H as [| |props props' F]; subst; simpl; try reflexivity.
  - now destruct b, b'.
  - clear H. induction F as [|[k c] [k' c'] l l' [E U] _ IH]; simpl;
      [reflexivity|].
    simpl in E, U. subst k'. now rewrite (same_units_site_errors k c c'), IH.
Qed.

Lemma same_units_lookup name (props props' : object) :
  Forall2 (fun entry entry' =>
             fst entry = fst entry' /\ same_units (snd entry) (snd entry'))
    props props' ->
  match lookup name props, lookup name props' with
  | Some v, Some v' => same_units v v'
  | None, None => True
  | _, _ => False
  end.
Proof.
  induction 1 as [|[k x] [k' x'] l l' [E U] _ IH]; simpl; [exact I|].
  simpl in E, U. subst k'. destruct (String.eqb k name); assumption.
Qed.

Lemma same_units_validation_errors config config' (dataUnits dataUnits' : object) :
  get_prop config "dataUnits" = Return (Some (VObj dataUnits)) ->
  get_prop config' "dataUnits" = Return (Some (VObj dataUnits')) ->
  same_units (VObj dataUnits) (VObj dataUnits') ->
  Config.validation_errors config = Config.validation_errors config'.
Proof.
  intros H H' U.
  rewrite (validation_errors_mapping _ _ H),
    (validation_errors_mapping _ _ H').
  inversion U as [| |props props' F]; subst; [reflexivity|].
  rewrite (same_units_top_keys _ _ F).
  pose proof (same_units_lookup "global_data" _ _ F) as G.
  pose proof (same_units_lookup "sites" _ _ F) as S.
  destruct (lookup "global_data" dataUnits) as [g|],
           (lookup "global_data" dataUnits') as [g'|]; try contradiction;
    destruct (lookup "sites" dataUnits) as [s|],
             (lookup "sites" dataUnits') as [s'|]; try contradiction;
    rewrite ?(same_units_keys_if_truthy _ _ G),
      ?(same_units_sites_errors _ _ S); reflexivity.
Qed.

(** X4. Validation looks at the keys and at the kinds of the values,
    never at the booleans: two configurations whose [dataUnits] mappings
    differ only in units switched on or off get the same list of errors,
    so editing the switches of a valid configuration keeps it valid. *)
Theorem validateConfig_ignores_switches :
  forall (config config' : value) (dataUnits dataUnits' : object),
    get_prop config "dataUnits" = Return (Some (VObj dataUnits)) ->
    get_prop config' "dataUnits" = Return (Some (VObj dataUnits')) ->
    same_units (VObj dataUnits) (VObj dataUnits') ->
    Config.validation_errors config = Config.validation_errors config'
    /\ (Config.validateConfig config = Return config
        <-> Config.validateConfig config' = Return config').
Proof.
  intros config config' dataUnits dataUnits' H H' U.
  pose proof (same_units_validation_errors _ _ _ _ H H' U) as E.
  split; [exact E|].
  pose proof (validation_errors_mapping _ _ H) as R.
  rewrite (validateConfig_of_errors _ _ R).
  rewrite E in R. rewrite (validateConfig_of_errors _ _ R).
  destruct (_ ++ _)%list; split; intros; (reflexivity || discriminate).
Qed.

Lemma unknown_keys_app known l l' :
  unknown_keys known (l ++ l') = (unknown_keys known l ++ unknown_keys known l')%list.
Proof. unfold unknown_keys. apply filter_app. Qed.

(** X5. Validation does not look into [customer_lists] or
    [inventory_lists]: whatever value one of the two properties is set
    to, a boolean, a number or [null] as well as a mapping, the list of
    errors stays as it was. *)
Theorem validateConfig_ignores_lists :
  forall (config config' : value) (dataUnits : object) (name : string)
         (lists : value),
    name = "customer_lists" \/ name = "inventory_lists" ->
    get_prop config "dataUnits" = Return (Some (VObj dataUnits)) ->
    get_prop config' "dataUnits"
    = Return (Some (VObj (set_prop dataUnits name lists))) ->
    Config.validation_errors config' = Config.validation_errors config.
Proof.
  intros config config' dataUnits name lists Hname H H'.
  rewrite (validation_errors_mapping _ _ H), (validation_errors_mapping _ _ H').
  assert (Hk : unknown_keys Config.validDataUnitKeys
                 (map fst (set_prop dataUnits name lists))
               = unknown_keys Config.validDataUnitKeys (map fst dataUnits)).
  { rewrite set_prop_keys.
    destruct (array_includes (map fst dataUnits) name); [reflexivity|].
    rewrite unknown_keys_app.
    destruct Hname as [-> | ->]; simpl; now rewrite app_nil_r. }
  rewrite Hk.
  now destruct Hname as [-> | ->];
    rewrite !lookup_set_prop_other by discriminate.
Qed.

(* ================================================================== *)
(** * More on the command compiler *)
(* ================================================================== *)

Lemma In_set_prop o key v k x :
  In (k, x) (set_prop o key v) -> In (k, x) o \/ (k, x) = (key, v).
Proof.
  induction o as [|[k' x'] rest IH]; simpl.
  - intros [E|[]]; auto.
  - destruct (String.eqb k' key) eqn:E; simpl.
    + apply String.eqb_eq in E. subst k'. intros [H|H]; auto.
    + intros [H|H]; auto. destruct (IH H); auto.
Qed.

Lemma keep_loop_members l :
  forall acc k v',
    In (k, v') (for_props keep_entry l acc) ->
    In (k, v') acc \/ exists x, In (k, x) l /\ kept x = Some v'.
Proof.
  induction l as [|[k0 x0] rest IH]; intros acc k v' H; simpl in H; [auto|].
  apply IH in H as [H|(x & Hin & Hk)].
  - unfold keep_entry in H. destruct (kept x0) as [v0|] eqn:E; [|auto].
    apply In_set_prop in H as [H|[= -> ->]]; [auto|].
    right. exists x0. split; [now left | assumption].
  - right. exists x. split; [now right | assumption].
Qed.

(** Every entry of the filtered tree is what the filter keeps of an
    entry of the tree under the same key. *)
Lemma filterEnabled_members v k v' :
  In (k, v') (Config.filterEnabled v) ->
  exists x, In (k, x) (own_entries v) /\ kept x = Some v'.
Proof.
  rewrite filterEnabled_keep. intros H.
  apply keep_loop_members in H as [[]|H]. exact H.
Qed.

Lemma In_lookup key (l : object) x :
  NoDup (map fst l) -> In (key, x) l -> lookup key l = Some x.
Proof.
  induction l as [|[k y] rest IH]; simpl; [contradiction|].
  intros Hnd. inversion Hnd as [|? ? Hk Hr]; subst.
  intros [[= -> ->]|H].
  - now rewrite String.eqb_refl.
  - destruct (String.eqb k key) eqn:E; [|now apply IH].
    apply String.eqb_eq in E. subst k. exfalso. apply Hk.
    apply in_map_iff. now exists (key, x).
Qed.

Lemma lookup_filterEnabled_top name dataUnits v' :
  distinct (map fst dataUnits) = true ->
  lookup name (Config.filterEnabled (VObj dataUnits)) = Some v' ->
  exists x, lookup name dataUnits = Some x /\ kept x = Some v'.
Proof.
  intros Hd L. apply lookup_In, filterEnabled_members in L as (x & Hin & Hk).
  exists x. split; [|assumption].
  apply In_lookup; [now apply distinct_NoDup | assumption].
Qed.

Lemma In_enabled_keys key entries :
  In key (Exporter.enabled_keys entries) <-> In (key, VBool true) entries.
Proof.
  unfold Exporter.enabled_keys. rewrite in_map_iff. split.
  - intros ([k x] & <- & H). apply filter_In in H as [H T].
    apply is_true_iff in T. simpl in T. now subst x.
  - intros H. exists (key, VBool true). split; [reflexivity|].
    apply filter_In. now split.
Qed.

Lemma kept_truthy x v' : kept x = Some v' -> truthy x = true.
Proof.
  unfold kept. destruct x as [| [|] | | | |]; try discriminate; reflexivity.
Qed.

Lemma kept_inv x v' :
  kept x = Some v' ->
  (x = VBool true /\ v' = x)
  \/ (is_mapping x = true /\ v' = VObj (Config.filterEnabled x)).
Proof.
  unfold kept. destruct x as [| [|] | | | elems | props]; try discriminate.
  - intros E. left. split; congruence.
  - destruct (nonempty (Config.filterEnabled (VArr elems))); [|discriminate].
    intros E. right. split; [reflexivity | congruence].
  - destruct (nonempty (Config.filterEnabled (VObj props))); [|discriminate].
    intros E. right. split; [reflexivity | congruence].
Qed.

(** The entries of what the filter keeps of a value come from entries
    of that value, which is then a mapping. *)
Lemma kept_members x v' key y' :
  kept x = Some v' ->
  In (key, y') (own_entries v') ->
  is_mapping x = true
  /\ exists y, In (key, y) (own_entries x) /\ kept y = Some y'.
Proof.
  intros K H. apply kept_inv in K as [[-> ->]|[M ->]]; [destruct H|].
  split; [assumption|]. now apply filterEnabled_members.
Qed.

Lemma kept_enabled_keys x v' key :
  kept x = Some v' ->
  In (key, VBool true) (own_entries v') ->
  is_mapping x = true /\ In key (own_keys x).
Proof.
  intros K H. destruct (kept_members _ _ _ _ K H) as (M & y & Hin & _).
  split; [assumption|]. apply in_map_iff. now exists (key, y).
Qed.

Lemma unknown_keys_nil known keys :
  unknown_keys known keys = [] -> forall key, In key keys -> In key known.
Proof.
  intros H key Hin.
  destruct (array_includes known key) eqn:E; [now apply array_includes_In|].
  assert (Hu : In key (unknown_keys known keys)).
  { apply In_unknown_keys. split; [assumption|]. intros Hk.
    apply array_includes_In in Hk. congruence. }
  rewrite H in Hu. contradiction.
Qed.

Lemma map_nil_inv {A B : Type} (f : A -> B) l : map f l = [] -> l = [].
Proof. now destruct l. Qed.

Lemma flat_map_nil_inv {A B : Type} (f : A -> list B) l :
  flat_map f l = [] -> forall x, In x l -> f x = [].
Proof.
  induction l as [|y rest IH]; simpl; [contradiction|].
  intros H x [<-|Hin]; apply app_eq_nil in H as [H1 H2]; auto.
Qed.

(** What an accepted configuration guarantees about its catalog keys. *)
Lemma validated_keys config dataUnits :
  get_prop config "dataUnits" = Return (Some (VObj dataUnits)) ->
  Config.validateConfig config = Return config ->
  (forall g key,
      lookup "global_data" dataUnits = Some g -> truthy g = true ->
      In key (own_keys g) -> In key Config.globalDataOptions)
  /\ (forall s siteId siteConfig key,
         lookup "sites" dataUnits = Some s -> truthy s = true ->
         In (siteId, siteConfig) (own_entries s) ->
         is_mapping siteConfig = true ->
         In key (own_keys siteConfig) -> In key Config.siteDataOptions).
Proof.
  intros H V. pose proof (validation_errors_mapping _ _ H) as E.
  rewrite (validateConfig_of_errors _ _ E) in V.
  match type of V with
  | match ?errors with _ => _ end = _ =>
      destruct errors as [|e rest] eqn:Eerr; [|discriminate]
  end.
  apply app_eq_nil in Eerr as [_ Eerr].
  apply app_eq_nil in Eerr as [Eg Es]. split.
  - intros g key Lg Tg Hin. apply map_nil_inv in Eg.
    apply (unknown_keys_nil _ _ Eg). apply In_keys_if_truthy. now exists g.
  - intros s siteId siteConfig key Ls Ts Hin M Hk.
    assert (Hsite : site_errors (siteId, siteConfig) = []).
    { apply (flat_map_nil_inv _ _ Es). apply In_entries_if_truthy.
      now exists s. }
    unfold site_errors in Hsite. simpl fst in Hsite. simpl snd in Hsite.
    unfold is_mapping in M. rewrite M in Hsite. apply map_nil_inv in Hsite.
    now apply (unknown_keys_nil _ _ Hsite).
Qed.

(** X6. From validation to the command line: for an accepted
    configuration whose [dataUnits] has distinct keys, the filtered tree
    always compiles, every key after [--global-data] is a global data
    option of the catalog, and every key after [--site-data] is a site
    data option of the catalog. *)
Theorem validated_selection_in_catalog :
  forall (path_resolve : string -> string) (config : value)
         (dataUnits : object) (exportOptions : Exporter.ExportOptions),
    get_prop config "dataUnits" = Return (Some (VObj dataUnits)) ->
    distinct (map fst dataUnits) = true ->
    Config.validateConfig config = Return config ->
    exists (globalData siteSection inventoryIds : list string),
      Exporter.buildExportArgs path_resolve
        (VObj (Config.filterEnabled (VObj dataUnits))) exportOptions
      = Return (preamble path_resolve exportOptions
                ++ flag "--global-data" globalData
                ++ siteSection
                ++ flag "--inventory-list" inventoryIds)%list
      /\ (forall key, In key globalData -> In key Config.globalDataOptions)
      /\ (siteSection = []
          \/ exists (siteIds allSiteData : list string),
              siteSection
              = (["--site"; join "," siteIds]
                 ++ flag "--site-data" allSiteData)%list
              /\ forall key,
                  In key allSiteData -> In key Config.siteDataOptions).
Proof.
  intros path_resolve config dataUnits exportOptions H Hd V.
  destruct (validated_keys _ _ H V) as [Hglobal Hsites].
  set (filtered := Config.filterEnabled (VObj dataUnits)).
  exists (Exporter.enabled_keys
            (entries_if_truthy (lookup "global_data" filtered))),
    (site_flags (lookup "sites" filtered)),
    (Exporter.enabled_keys
       (entries_if_truthy (lookup "inventory_lists" filtered))).
  split; [|split].
  - apply buildExportArgs_layout, filtered_no_null_site.
    apply filterEnabled_filtered.
  - intros key Hin. apply In_enabled_keys in Hin.
    apply In_entries_if_truthy in Hin as (g' & Lg' & _ & Hin).
    apply (lookup_filterEnabled_top _ _ _ Hd) in Lg' as (g & Lg & Kg).
    destruct (kept_enabled_keys _ _ _ Kg Hin) as [_ Hk].
    apply (Hglobal g key Lg (kept_truthy _ _ Kg) Hk).
  - unfold site_flags.
    destruct (entries_if_truthy (lookup "sites" filtered))
      as [|entry rest] eqn:E; [now left|].
    right. rewrite <- E.
    exists (map fst (entries_if_truthy (lookup "sites" filtered))),
      (site_data_union [] (map snd (entries_if_truthy (lookup "sites" filtered)))).
    split; [reflexivity|].
    intros key Hin. apply In_site_data_union in Hin
      as [[]|(c' & Hc' & _ & Hkey)].
    apply in_map_iff in Hc' as ([siteId c''] & Heq & Hentry).
    simpl in Heq. subst c''.
    apply In_entries_if_truthy in Hentry as (s' & Ls' & _ & Hentry).
    apply (lookup_filterEnabled_top _ _ _ Hd) in Ls' as (s & Ls & Ks).
    destruct (kept_members _ _ _ _ Ks Hentry) as (_ & c & Hc & Kc).
    destruct (kept_enabled_keys _ _ _ Kc Hkey) as [Mc Hk].
    apply (Hsites s siteId c key Ls (kept_truthy _ _ Ks) Hc Mc Hk).
Qed.

(** ** A site that is [null] *)

Lemma collect_site_data_not_null acc c :
  is_null c = false -> exists acc', Exporter.collect_site_data acc c = Return acc'.
Proof.
  intros H. unfold Exporter.collect_site_data, Object_entries. rewrite H.
  destruct (is_object_type c); simpl; eauto.
Qed.

Lemma collect_sites_null siteConfigs :
  forallb (fun c => negb (is_null c)) siteConfigs = false ->
  forall acc, foldM Exporter.collect_site_data siteConfigs acc = Throw TypeError.
Proof.
  induction siteConfigs as [|c rest IH]; simpl; [discriminate|].
  intros H acc. destruct (is_null c) eqn:N.
  - destruct c; try discriminate. reflexivity.
  - simpl in H. destruct (collect_site_data_not_null acc c N) as [acc' ->].
    simpl. now apply IH.
Qed.

Lemma buildExportArgs_throws_on_null path_resolve dataUnits exportOptions :
  no_null_site dataUnits = false ->
  Exporter.buildExportArgs path_resolve (VObj dataUnits) exportOptions
  = Throw TypeError.
Proof.
  intros N. unfold no_null_site, entries_if_truthy in N.
  unfold Exporter.buildExportArgs. simpl get_prop. simpl bind.
  destruct (lookup "sites" dataUnits) as [s|]; [|discriminate].
  destruct (truthy s); [|discriminate]. simpl andb.
  unfold own_keys, own_values. rewrite length_map.
  destruct (own_entries s) as [|entry rest] eqn:E; [discriminate|].
  rewrite <- E in *.
  replace (0 <? List.length (own_entries s))%nat with true
    by (now rewrite E).
  now rewrite collect_sites_null.
Qed.

(** X7. [buildExportArgs] fails exactly on a site that is [null]: when
    the [sites] property is truthy and one of its values is [null], the
    call throws a TypeError, whatever else the tree and the options hold;
    in every other case it returns an argument list. *)
Theorem buildExportArgs_null_site_throws :
  forall (path_resolve : string -> string) (dataUnits : object)
         (exportOptions : Exporter.ExportOptions),
    (Exporter.buildExportArgs path_resolve (VObj dataUnits) exportOptions
     = Throw TypeError
     <-> exists sites siteId,
         lookup "sites" dataUnits = Some sites
         /\ truthy sites = true
         /\ In (siteId, VNull) (own_entries sites))
    /\ ((exists args,
            Exporter.buildExportArgs path_resolve (VObj dataUnits) exportOptions
            = Return args)
        \/ Exporter.buildExportArgs path_resolve (VObj dataUnits) exportOptions
           = Throw TypeError).
Proof.
  intros path_resolve dataUnits exportOptions.
  assert (Hnull : no_null_site dataUnits = false
                  <-> exists sites siteId,
                      lookup "sites" dataUnits = Some sites
                      /\ truthy sites = true
                      /\ In (siteId, VNull) (own_entries sites)).
  { unfold no_null_site. split.
    - intros H.
      destruct (forallb_forall (fun c => negb (is_null c))
                  (map snd (entries_if_truthy (lookup "sites" dataUnits))))
        as [_ Hall].
      destruct (existsb (fun c => is_null c)
                  (map snd (entries_if_truthy (lookup "sites" dataUnits))))
        eqn:Ex.
      + apply existsb_exists in Ex as (c & Hc & N).
        destruct c; try discriminate.
        apply in_map_iff in Hc as ([siteId c] & Heq & Hin). simpl in Heq.
        subst c. apply In_entries_if_truthy in Hin as (s & Ls & Ts & Hin).
        now exists s, siteId.
      + rewrite Hall in H; [discriminate|]. intros c Hc.
        destruct (is_null c) eqn:N; [|reflexivity].
        assert (existsb (fun c => is_null c)
                  (map snd (entries_if_truthy (lookup "sites" dataUnits)))
                = true) by (apply existsb_exists; now exists c).
        congruence.
    - intros (s & siteId & Ls & Ts & Hin).
      destruct (forallb _ _) eqn:F; [|reflexivity].
      rewrite forallb_forall in F.
      assert (Hc : In VNull (map snd (entries_if_truthy
                                        (lookup "sites" dataUnits)))).
      { apply in_map_iff. exists (siteId, VNull). split; [reflexivity|].
        apply In_entries_if_truthy. now exists s. }
      apply F in Hc. discriminate. }
  destruct (no_null_site dataUnits) eqn:N.
  - rewrite buildExportArgs_layout by assumption. split.
    + split; [discriminate|]. intros Hex. apply Hnull in Hex. discriminate.
    + left. eauto.
  - rewrite buildExportArgs_throws_on_null by assumption. split.
    + split; [intros _; now apply Hnull | reflexivity].
    + now right.
Qed.

(** ** Compiling what the filter returns *)

Lemma kept_is_true x :
  is_true x = true -> kept x = Some x.
Proof. destruct x as [| [|] | | | |]; try discriminate. reflexivity. Qed.















(** ** Reading the lists of the command line back *)

Lemma split_not_nil c s : split c s <> [].
Proof.
  destruct s as [|a rest]; simpl; [discriminate|].
  destruct (Ascii.eqb a c); [discriminate|].
  destruct (split c rest); discriminate.
Qed.

Lemma split_comma_free s :
  comma_free s = true -> split "," s = [s].
Proof.
  induction s as [|a rest IH]; [reflexivity|]. simpl.
  intros H. apply andb_true_iff in H as [Ha Hr].
  apply negb_true_iff in Ha. rewrite Ha, (IH Hr). reflexivity.
Qed.

Lemma split_comma_app s rest :
  comma_free s = true ->
  split "," (s ++ String "," rest) = s :: split "," rest.
Proof.
  induction s as [|a s' IH]; [reflexivity|]. simpl.
  intros H. apply andb_true_iff in H as [Ha Hr].
  apply negb_true_iff in Ha. rewrite Ha, (IH Hr). reflexivity.
Qed.

Lemma split_join values :
  values <> [] ->
  Forall (fun s => comma_free s = true) values ->
  split "," (join "," values) = values.
Proof.
  intros Hne F. induction F as [|s rest Hs F IH]; [congruence|].
  destruct rest as [|s' rest'].
  - simpl. now apply split_comma_free.
  - change (join "," (s :: s' :: rest'))
      with (s ++ String "," (join "," (s' :: rest'))).
    rewrite (split_comma_app _ _ Hs). f_equal. apply IH. discriminate.
Qed.

(** X9. The [--site] argument can be read back: when [sites] is a
    mapping with at least one site, none of them [null], and no site
    identifier contains a comma, the command line holds [--site]
    followed by one argument, and splitting that argument at the commas
    gives the site identifiers, in the order of the mapping. *)
Theorem buildExportArgs_sites_read_back :
  forall (path_resolve : string -> string) (dataUnits sites : object)
         (exportOptions : Exporter.ExportOptions),
    lookup "sites" dataUnits = Some (VObj sites) ->
    sites <> [] ->
    no_null_site dataUnits = true ->
    Forall (fun siteId => comma_free siteId = true) (map fst sites) ->
    exists (before after : list string) (siteList : string),
      Exporter.buildExportArgs path_resolve (VObj dataUnits) exportOptions
      = Return (before ++ ["--site"; siteList] ++ after)%list
      /\ split "," siteList = map fst sites.
Proof.
  intros path_resolve dataUnits sites exportOptions L Hne N F.
  rewrite (buildExportArgs_layout _ _ _ N), L, (site_flags_mapping _ Hne).
  eexists (preamble path_resolve exportOptions ++ flag "--global-data" _)%list,
    (flag "--site-data" _ ++ flag "--inventory-list" _)%list, _.
  split.
  - rewrite <- !app_assoc. reflexivity.
  - apply split_join; [|exact F]. now destruct sites.
Qed.

(* ================================================================== *)
(** * The calls of the tool *)
(* ================================================================== *)




(** ** The message of a failed export *)







(** ** The result of an export *)

Lemma read_set_result o key v name :
  read (Exporter.set_result o key v) name
  = if String.eqb key name then v else read o name.
Proof.
  induction o as [|[k x] rest IH]; simpl; [reflexivity|].
  destruct (String.eqb k key) eqn:E; simpl.
  - apply String.eqb_eq in E. subst k.
    now destruct (String.eqb key name).
  - destruct (String.eqb k name) eqn:E'; [|exact IH].
    apply String.eqb_eq in E'. subst k. now rewrite String.eqb_sym, E.
Qed.

Lemma read_assigned (entries : object) :
  NoDup (map fst entries) ->
  forall o name,
    read (fold_left
            (fun o entry => Exporter.set_result o (fst entry) (Some (snd entry)))
            entries o) name
    = match lookup name entries with
      | Some v => Some v
      | None => read o name
      end.
Proof.
  induction entries as [|[k x] rest IH]; intros Hnd o name; [reflexivity|].
  inversion Hnd as [|? ? Hk Hr]; subst. simpl.
  rewrite (IH Hr), read_set_result.
  destruct (String.eqb k name) eqn:E; [|reflexivity].
  apply String.eqb_eq in E. subst k.
  now rewrite (lookup_absent name rest Hk).
Qed.

(** X12. What a successful export returns, for a child that prints a
    JSON object with distinct keys: every property of that object is a
    property of the result with the same value, [success] and
    [localPath] included, so that the child can set [success] to
    something else than [true]; [success] is [true] when the object has
    no such property; and the fallbacks [output.path] and
    [output.archive] are read only when the object has no [localPath],
    no [archiveFilename] property at all. *)
Theorem export_success_output_wins :
  forall (JSON_parse : string -> option value) (absoluteOutputPath : string)
         (result : Exporter.CommandResult) (output : object),
    JSON_parse (Exporter.stdout result) = Some (VObj output) ->
    distinct (map fst output) = true ->
    let returned :=
      Exporter.export_success JSON_parse absoluteOutputPath result in
    (forall name v, lookup name output = Some v -> read returned name = Some v)
    /\ (lookup "success" output = None ->
        read returned "success" = Some (VBool true))
    /\ (lookup "localPath" output = None ->
        read returned "localPath" = lookup "path" output)
    /\ (lookup "archiveFilename" output = None ->
        read returned "archiveFilename" = lookup "archive" output).
Proof.
  intros JSON_parse absoluteOutputPath result output P D returned.
  apply distinct_NoDup in D.
  assert (R : forall name,
             read returned name
             = match lookup name output with
               | Some v => Some v
               | None =>
                   read [("success", Some (VBool true));
                         ("localPath",
                          Exporter.or_else (lookup "localPath" output)
                            (lookup "path" output));
                         ("archiveFilename",
                          Exporter.or_else (lookup "archiveFilename" output)
                            (lookup "archive" output))] name
               end).
  { intros name. unfold returned, Exporter.export_success. rewrite P.
    simpl get_prop. cbv iota. simpl own_entries.
    apply (read_assigned output D). }
  split; [|split; [|split]].
  - intros name v L. now rewrite R, L.
  - intros L. now rewrite R, L.
  - intros L. rewrite R, L. reflexivity.
  - intros L. rewrite R, L. reflexivity.
Qed.


(** ** The import *)








(** ** The instance *)

Lemma config_of_not_null output config :
  Child.config_of output = Return config -> is_null config = false.
Proof.
  unfold Child.config_of. destruct output; try discriminate; simpl;
    try (intros [= <-]; reflexivity).
  destruct (lookup "config" props) as [nested|]; [|intros [= <-]; reflexivity].
  destruct (truthy nested) eqn:T; intros [= <-]; [|reflexivity].
  now destruct nested.
Qed.

Lemma get_prop_not_null v name :
  is_null v = false ->
  get_prop v name = Return (match v with
                            | VObj props => lookup name props
                            | _ => None
                            end).
Proof. now destruct v. Qed.

Lemma or_else_truthy a b :
  truthy_opt a = true -> Exporter.or_else a b = a.
Proof. intros T. unfold Exporter.or_else. now rewrite T. Qed.

Lemma or_else_falsy a b :
  truthy_opt a = false -> Exporter.or_else a b = b.
Proof. intros T. unfold Exporter.or_else. now rewrite T. Qed.

Lemma or_unknown_truthy a b :
  exists hostname,
    Exporter.or_else (Exporter.or_else a b) (Some (VStr "unknown"))
    = Some hostname
    /\ truthy hostname = true.
Proof.
  destruct (truthy_opt (Exporter.or_else a b)) eqn:T.
  - rewrite (or_else_truthy _ _ T).
    destruct (Exporter.or_else a b) as [hostname|]; [eauto | discriminate].
  - rewrite (or_else_falsy _ _ T). eexists. split; reflexivity.
Qed.

(** X14. The host name of the instance.  [getInstanceInfo] always
    reports a truthy host name.  [testInstanceConnectivity] either
    succeeds, with a truthy host name and no error, or fails, with no
    host name and an error text; when it succeeds, [getInstanceInfo]
    called with the same options on the same instance reports the same
    host name. *)
Theorem instance_hostname :
  forall (spawn : list string -> Exporter.CommandResult)
         (JSON_parse : string -> option value)
         (SyntaxError_message TypeError_message : string -> string)
         (options : Child.Options),
    (exists hostname,
        read (Child.getInstanceInfo spawn JSON_parse options) "hostname"
        = Some hostname
        /\ truthy hostname = true)
    /\ ((exists hostname,
            Child.testInstanceConnectivity spawn JSON_parse
              SyntaxError_message TypeError_message options
            = Child.connectivity true hostname VNull
            /\ truthy hostname = true
            /\ read (Child.getInstanceInfo spawn JSON_parse options) "hostname"
               = Some hostname)
        \/ (exists error,
               Child.testInstanceConnectivity spawn JSON_parse
                 SyntaxError_message TypeError_message options
               = Child.connectivity false VNull (VStr error))).
Proof.
  intros spawn JSON_parse SyntaxError_message TypeError_message options.
  unfold Child.getInstanceInfo, Child.testInstanceConnectivity.
  set (result := Child.executeB2cCommand spawn ["setup"; "config"]
                   (Exporter.default false (Child.debug options))
                   (Child.instance options)).
  destruct (Child.exit_zero result).
  2:{ split; [eexists; split; reflexivity|]. right. eauto. }
  destruct (JSON_parse (Exporter.stdout result)) as [output|].
  2:{ split; [eexists; split; reflexivity|]. right. eauto. }
  destruct (Child.config_of output) as [config|] eqn:C; cbn [bind].
  2:{ split; [eexists; split; reflexivity|]. right. eauto. }
  pose proof (config_of_not_null _ _ C) as N.
  rewrite !(get_prop_not_null config _ N). cbn [bind].
  set (get := fun name => match config with
                          | VObj props => lookup name props
                          | _ => None
                          end).
  change (match config with VObj props => lookup "hostname" props | _ => None end)
    with (get "hostname").
  change (match config with VObj props => lookup "server" props | _ => None end)
    with (get "server").
  assert (R : forall v rest, read (("hostname", v) :: rest) "hostname" = v)
    by reflexivity.
  rewrite !R. split; [apply or_unknown_truthy|].
  destruct (get "hostname") as [hostname|] eqn:H; [|right; eauto].
  destruct (truthy hostname) eqn:T; [|right; eauto].
  left. exists hostname. split; [reflexivity|]. split; [exact T|].
  rewrite (or_else_truthy (Some hostname) (get "server") T).
  apply (or_else_truthy (Some hostname) _ T).
Qed.


(* ================================================================== *)
(** * The configuration file and the commands *)
(* ================================================================== *)



(** ** The data units of the interactive mode *)

Lemma entries_or_empty a :
  entries_if_truthy (Some (Commands.or_empty a)) = entries_if_truthy a.
Proof.
  destruct a as [x|]; [|reflexivity]. simpl.
  destruct (truthy x) eqn:T; [now rewrite T | reflexivity].
Qed.

Lemma buildDataUnits_entries props :
  exists dataUnits,
    Commands.buildDataUnitsFromInteractiveConfig (VObj props)
    = Return dataUnits
    /\ (2 <= List.length dataUnits)%nat
    /\ lookup "customer_lists" dataUnits = None
    /\ lookup "global_data" dataUnits
       = Some (Commands.or_empty (lookup "global_data" props))
    /\ lookup "sites" dataUnits
       = Some (Commands.or_empty (lookup "sites" props))
    /\ entries_if_truthy (lookup "inventory_lists" dataUnits)
       = entries_if_truthy (lookup "inventory_lists" props).
Proof.
  unfold Commands.buildDataUnitsFromInteractiveConfig. simpl get_prop.
  cbn [bind].
  destruct (lookup "inventory_lists" props) as [lists|].
  - destruct (truthy lists) eqn:T; eexists; (split; [reflexivity|]);
      simpl; rewrite ?T; repeat split; lia.
  - eexists. split; [reflexivity|]. simpl. repeat split; lia.
Qed.

(** X16. The data units of the interactive mode.  For every
    configuration object, [buildDataUnitsFromInteractiveConfig] returns
    an object with at least the two properties [global_data] and
    [sites], even when nothing is selected, and never with
    [customer_lists]; and compiling what it returns gives what compiling
    the configuration itself gives, the same arguments or the same
    TypeError. *)
Theorem buildDataUnitsFromInteractiveConfig_compiles :
  forall (path_resolve : string -> string) (config : object)
         (exportOptions : Exporter.ExportOptions),
    exists dataUnits,
      Commands.buildDataUnitsFromInteractiveConfig (VObj config)
      = Return dataUnits
      /\ (2 <= List.length (own_keys (VObj dataUnits)))%nat
      /\ lookup "customer_lists" dataUnits = None
      /\ Exporter.buildExportArgs path_resolve (VObj dataUnits) exportOptions
         = Exporter.buildExportArgs path_resolve (VObj config) exportOptions.
Proof.
  intros path_resolve config exportOptions.
  destruct (buildDataUnits_entries config)
    as (dataUnits & E & Hlen & Hc & Hg & Hs & Hi).
  exists dataUnits. split; [exact E|]. split.
  { unfold own_keys. simpl own_entries. now rewrite length_map. }
  split; [exact Hc|].
  assert (N : no_null_site dataUnits = no_null_site config).
  { unfold no_null_site. now rewrite Hs, entries_or_empty. }
  destruct (no_null_site config) eqn:N'.
  - rewrite !buildExportArgs_layout by assumption.
    unfold site_flags. now rewrite Hg, Hs, Hi, !entries_or_empty.
  - now rewrite !buildExportArgs_throws_on_null.
Qed.

(** ** The templates of the init command *)

(** X17. The templates of the source stay valid under editing: a
    configuration whose [dataUnits] differ from those of [defaultConfig]
    or of the minimal or the full template of the init command only in
    units switched on or off passes [validateConfig].  As generated, the
    full template has every unit switched off, and the filter leaves
    nothing of it. *)
Theorem init_templates_valid :
  (forall (template config : value) (dataUnits dataUnits' : object),
      template = ConfigFile.defaultConfig
      \/ template = Commands.minimalConfig
      \/ template = Commands.generateFullConfig ->
      get_prop template "dataUnits" = Return (Some (VObj dataUnits)) ->
      get_prop config "dataUnits" = Return (Some (VObj dataUnits')) ->
      same_units (VObj dataUnits) (VObj dataUnits') ->
      Config.validateConfig config = Return config)
  /\ (exists dataUnits,
         get_prop Commands.generateFullConfig "dataUnits"
         = Return (Some dataUnits)
         /\ Config.filterEnabledDataUnits dataUnits = Return (VObj [])).
Proof.
  split.
  - intros template config dataUnits dataUnits' Ht H H' U.
    pose proof (same_units_validation_errors _ _ _ _ H H' U) as E.
    apply (validateConfig_of_errors _ []). rewrite <- E.
    now destruct Ht as [-> | [-> | ->]]; vm_compute.
  - eexists. split; [reflexivity|]. now vm_compute.
Qed.

(** ** A template without placeholders *)

(** X18. A template in which none of the four placeholders occurs is
    the archive name, whatever the time and the site. *)
Theorem generateArchiveName_without_placeholder :
  forall (now : Config.Date) (template : string) (context : Config.Context),
    includes template "{date}" = false ->
    includes template "{time}" = false ->
    includes template "{timestamp}" = false ->
    includes template "{site}" = false ->
    Config.generateArchiveName now template context = template.
Proof.
  intros now template context Hd Ht Hs Hsite.
  unfold Config.generateArchiveName.
  now rewrite (replace_absent template "{date}") by assumption;
    rewrite (replace_absent template "{time}") by assumption;
    rewrite (replace_absent template "{timestamp}") by assumption;
    rewrite (replace_absent template "{site}") by assumption.
Qed.


(* ================================================================== *)
(** * The further properties at work on concrete configurations *)
(* ================================================================== *)



Lemma validateConfig_dataUnits_edges_witness :
  truthy_opt (lookup "dataUnits" archive_only) = false
  /\ Config.validateConfig (VObj archive_only)
     = Throw (Error (VStr (Config.validation_failed
                             [Config.missing_dataUnits]))).
Proof.
  split; [reflexivity|].
  apply (proj1 (proj2 validateConfig_dataUnits_edges) archive_only).
  reflexivity.
Defined.

Lemma validateConfig_ignores_switches_witness :
  same_units (VObj readme_dataUnits)
    (VObj [("global_data",
            VObj [("meta_data", VBool true); ("custom_types", VBool false)]);
           ("sites",
            VObj [("RefArch",
                   VObj [("content", VBool true);
                         ("site_preferences", VBool true);
                         ("customer_groups", VBool true)])])])
  /\ Config.validation_errors readme_config
     = Config.validation_errors readme_switched
  /\ (Config.validateConfig readme_config = Return readme_config
      <-> Config.validateConfig readme_switched = Return readme_switched).
Proof.
  assert (U : same_units (VObj readme_dataUnits)
                (VObj [("global_data",
                        VObj [("meta_data", VBool true);
                              ("custom_types", VBool false)]);
                       ("sites",
                        VObj [("RefArch",
                               VObj [("content", VBool true);
                                     ("site_preferences", VBool true);
                                     ("customer_groups", VBool true)])])])).
  { apply same_units_obj. constructor; [split; [reflexivity|]|].
    - apply same_units_obj. constructor; [split; [reflexivity|]|].
      + apply same_units_refl.
      + constructor; [split; [reflexivity|]|constructor].
        apply same_units_bool.
    - constructor; [split; [reflexivity|]|constructor].
      apply same_units_refl. }
  split; [exact U|].
  apply (validateConfig_ignores_switches readme_config readme_switched
           readme_dataUnits _ eq_refl eq_refl U).
Defined.

Lemma validateConfig_ignores_lists_witness :
  get_prop readme_config "dataUnits" = Return (Some (VObj readme_dataUnits))
  /\ Config.validation_errors readme_null_lists
     = Config.validation_errors readme_config.
Proof.
  split; [reflexivity|].
  apply (validateConfig_ignores_lists readme_config readme_null_lists
           readme_dataUnits "customer_lists" VNull);
    [now left | reflexivity | reflexivity].
Defined.

Lemma validated_selection_in_catalog_witness :
  Config.validateConfig readme_config = Return readme_config
  /\ exists (globalData siteSection inventoryIds : list string),
      Exporter.buildExportArgs work_dir
        (VObj (Config.filterEnabled (VObj readme_dataUnits))) no_options
      = Return (preamble work_dir no_options
                ++ flag "--global-data" globalData
                ++ siteSection
                ++ flag "--inventory-list" inventoryIds)%list
      /\ (forall key, In key globalData -> In key Config.globalDataOptions)
      /\ (siteSection = []
          \/ exists (siteIds allSiteData : list string),
              siteSection
              = (["--site"; join "," siteIds]
                 ++ flag "--site-data" allSiteData)%list
              /\ forall key,
                  In key allSiteData -> In key Config.siteDataOptions).
Proof.
  split; [reflexivity|].
  apply (validated_selection_in_catalog work_dir readme_config
           readme_dataUnits no_options); reflexivity.
Defined.

Lemma buildExportArgs_null_site_throws_witness :
  lookup "sites" null_site = Some (VObj [("RefArch", VNull)])
  /\ Exporter.buildExportArgs work_dir (VObj null_site) no_options
     = Throw TypeError.
Proof.
  split; [reflexivity|].
  apply (proj2 (proj1 (buildExportArgs_null_site_throws work_dir null_site
                         no_options))).
  exists (VObj [("RefArch", VNull)]), "RefArch".
  split; [reflexivity|]. split; [reflexivity|]. now left.
Defined.


Lemma buildExportArgs_sites_read_back_witness :
  lookup "sites" two_sites = Some (VObj two_sites_mapping)
  /\ exists (before after : list string) (siteList : string),
      Exporter.buildExportArgs work_dir (VObj two_sites) no_options
      = Return (before ++ ["--site"; siteList] ++ after)%list
      /\ split "," siteList = map fst two_sites_mapping.
Proof.
  split; [reflexivity|].
  apply (buildExportArgs_sites_read_back work_dir two_sites two_sites_mapping
           no_options);
    [reflexivity | discriminate | reflexivity | repeat constructor].
Defined.



Lemma export_success_output_wins_witness :
  parse_refused (Exporter.stdout (child_done [])) = Some (VObj refused_output)
  /\ read (Exporter.export_success parse_refused "/work/exports" (child_done []))
       "success"
     = Some (VBool false).
Proof.
  split; [reflexivity|].
  apply (proj1 (export_success_output_wins parse_refused "/work/exports"
                  (child_done []) refused_output eq_refl eq_refl)).
  reflexivity.
Defined.



Lemma init_templates_valid_witness :
  get_prop minimal_edited "dataUnits"
  = Return (Some (VObj
       [("global_data",
          VObj [("meta_data", VBool true); ("custom_types", VBool true)]);
         ("sites",
          VObj
            [("YourSiteId",
              VObj [("content", VBool true);
                    ("site_preferences", VBool false);
                    ("customer_groups", VBool true)])])]))
  /\ Config.validateConfig minimal_edited = Return minimal_edited.
Proof.
  split; [reflexivity|].
  apply (proj1 init_templates_valid Commands.minimalConfig minimal_edited
           _ _ (or_intror (or_introl eq_refl)) eq_refl eq_refl).
  apply same_units_obj. constructor; [split; [reflexivity|]|].
  - apply same_units_refl.
  - constructor; [split; [reflexivity|]|constructor].
    apply same_units_obj. constructor; [split; [reflexivity|]|constructor].
    apply same_units_obj. constructor; [split; [reflexivity|]|].
    + apply same_units_refl.
    + constructor; [split; [reflexivity|]|].
      * apply same_units_bool.
      * constructor; [split; [reflexivity|]|constructor].
        apply same_units_refl.
Defined.

Lemma generateArchiveName_without_placeholder_witness :
  includes "nightly-export" "{date}" = false
  /\ Config.generateArchiveName sample_clock "nightly-export" refarch
     = "nightly-export".
Proof.
  split; [reflexivity|].
  apply (generateArchiveName_without_placeholder sample_clock "nightly-export"
           refarch); reflexivity.
Defined.
